(** * TenderVista: the tender analyzer ([tender_analyzer.py])

    A shallow embedding of the field parser, the text extractor and the
    command-line entry point, followed by the properties of the
    specification that were checked against them.

    Text is modelled as a list of characters whose code points lie in
    0..255 (the Latin-1 part of a Python [str]); the character tables
    below ([isspace], [is_linebreak], [isupper], [lower]) are Python's,
    restricted to that range. *)

From Stdlib Require Import Ascii String Bool Arith NArith ZArith Lia List.
Import ListNotations.

Set Implicit Arguments.

(** ** Characters and strings *)

Definition str := list ascii.

Definition txt (x : string) : str := list_ascii_of_string x.

Definition code (c : ascii) : N := N_of_ascii c.

Definition in_range (lo hi : N) (c : ascii) : bool :=
  ((lo <=? code c) && (code c <=? hi))%N.

Definition LF : ascii := ascii_of_N 10.
Definition CR : ascii := ascii_of_N 13.

(** [str.isspace] on one character: TAB..CR, FS..US, SPACE, NEL, NBSP. *)
Definition isspace (c : ascii) : bool :=
  in_range 9 13 c || in_range 28 31 c || (code c =? 32)%N
  || (code c =? 133)%N || (code c =? 160)%N.

(** The line boundaries of [str.splitlines]: LF, VT, FF, CR, FS, GS, RS, NEL. *)
Definition is_linebreak (c : ascii) : bool :=
  in_range 10 13 c || in_range 28 30 c || (code c =? 133)%N.

(** [str.isupper] on one character: A-Z and the Latin-1 capital letters. *)
Definition isupper (c : ascii) : bool :=
  in_range 65 90 c || in_range 192 214 c || in_range 216 222 c.

(** Simple lower-casing, as the regex engine applies it under IGNORECASE. *)
Definition lower (c : ascii) : ascii :=
  if isupper c then ascii_of_N (code c + 32) else c.

Definition is_empty (x : str) : bool :=
  match x with [] => true | _ :: _ => false end.

(** [str.lstrip], [str.rstrip], [str.strip] with no argument. *)
Fixpoint lstrip (x : str) : str :=
  match x with
  | c :: x' => if isspace c then lstrip x' else x
  | [] => []
  end.

Definition rstrip (x : str) : str := rev (lstrip (rev x)).

Definition strip (x : str) : str := lstrip (rstrip x).

(** [str.splitlines]: the terminators are dropped, CR LF counts once, and a
    final terminator opens no further line. *)
Fixpoint splitlines (x : str) : list str :=
  match x with
  | [] => []
  | c :: x' =>
      if Ascii.eqb c CR then
        match x' with
        | d :: x'' => if Ascii.eqb d LF then [] :: splitlines x''
                      else [] :: splitlines x'
        | [] => [[]]
        end
      else if is_linebreak c then [] :: splitlines x'
      else match splitlines x' with
           | [] => [[c]]
           | l :: ls => (c :: l) :: ls
           end
  end.

(** [sep.join(parts)]. *)
Fixpoint join (sep : str) (parts : list str) : str :=
  match parts with
  | [] => []
  | p :: ps => match ps with
               | [] => p
               | _ :: _ => p ++ sep ++ join sep ps
               end
  end.

(** ** Exceptions *)

Inductive exn : Type :=
| RuntimeError (msg : str)
| AttributeError (msg : str)
| OtherError (msg : str).

(** [str(e)]. *)
Definition exn_message (e : exn) : str :=
  match e with
  | RuntimeError m | AttributeError m | OtherError m => m
  end.

Inductive result (A : Type) : Type :=
| Ok (a : A)
| Raise (e : exn).
Arguments Ok {A} a.
Arguments Raise {A} e.

Definition bind {A B : Type} (r : result A) (f : A -> result B) : result B :=
  match r with
  | Ok a => f a
  | Raise e => Raise e
  end.

Notation "x <- c1 ;; c2" := (bind c1 (fun x => c2))
  (at level 61, c1 at next level, right associativity).

(** [try: body except Exception: handler]. *)
Definition try_except {A : Type} (body : result A) (handler : exn -> result A)
  : result A :=
  match body with
  | Ok a => Ok a
  | Raise e => handler e
  end.

(** ** The regular expressions of the parser

    A backtracking matcher for the fragment of Python's [re] syntax that
    the four patterns use.  Every repetition in them is over a single
    character, so [Rep] repeats an [atom]. *)

Module Re.

Inductive set_item : Type :=
| SChar (c : ascii)
| SRange (lo hi : ascii)
| SSpace.                                   (* \s inside a set *)

Inductive atom : Type :=
| Lit (c : ascii)                           (* a literal character *)
| Dot                                       (* .  *)
| Space                                     (* \s *)
| OneOf (items : list set_item).            (* [...] *)

Inductive re : Type :=
| Eps
| At (a : atom)
| Bol                                       (* ^ *)
| Eol                                       (* $ *)
| Seq (r1 r2 : re)
| Alt (r1 r2 : re)
| Opt (r : re)                              (* (?:r)? *)
| Rep (a : atom) (lo : nat) (hi : option nat)   (* a{lo,hi}; a*, a+ *)
| Group (r : re).                           (* (r), group 1 *)

Record flags : Type := { ignorecase : bool; multiline : bool }.

Definition item_has (c : ascii) (i : set_item) : bool :=
  match i with
  | SChar d => Ascii.eqb c d
  | SRange lo hi => in_range (code lo) (code hi) c
  | SSpace => isspace c
  end.

(** The characters of a set whose lower-case form is [c]: under IGNORECASE
    the compiler lower-cases the members of a set and the matcher
    lower-cases the subject character. *)
Definition item_has_ci (c : ascii) (i : set_item) : bool :=
  match i with
  | SChar d => Ascii.eqb (lower c) (lower d)
  | SRange lo hi =>
      existsb (fun n => Ascii.eqb (lower c) (lower (ascii_of_N n)))
              (map (fun k => (code lo + N.of_nat k)%N)
                   (seq 0 (N.to_nat (code hi + 1 - code lo))))
  | SSpace => isspace c
  end.

Definition atom_match (f : flags) (a : atom) (c : ascii) : bool :=
  match a with
  | Lit d => if ignorecase f then Ascii.eqb (lower c) (lower d)
             else Ascii.eqb c d
  | Dot => negb (Ascii.eqb c LF)
  | Space => isspace c
  | OneOf items => existsb (if ignorecase f then item_has_ci c
                            else item_has c) items
  end.

(** The matcher's position: the character before it (if any), the text
    from it on, and what group 1 holds. *)
Record mstate : Type :=
  { prev : option ascii; rest : str; grp : option str }.

Definition at_bol (f : flags) (st : mstate) : bool :=
  match prev st with
  | None => true
  | Some c => multiline f && Ascii.eqb c LF
  end.

Definition at_eol (f : flags) (st : mstate) : bool :=
  match rest st with
  | [] => true
  | c :: t => Ascii.eqb c LF && (multiline f || is_empty t)
  end.

Definition dec_hi (hi : option nat) : option nat :=
  match hi with
  | Some n => Some (Nat.pred n)
  | None => None
  end.

Definition hi_allows (hi : option nat) : bool :=
  match hi with
  | Some 0 => false
  | _ => true
  end.

Section Matcher.

Variable f : flags.
Variable R : Type.

(** Greedy repetition of a one-character test: take as many characters
    as allowed, then give them back one at a time until the rest of the
    pattern matches. *)
Fixpoint rep_greedy (p : ascii -> bool) (lo : nat) (hi : option nat)
    (pv : option ascii) (x : str) (k : option ascii -> str -> option R)
    {struct x} : option R :=
  let stop := if Nat.eqb lo 0 then k pv x else None in
  match x with
  | c :: x' =>
      if p c && hi_allows hi then
        match rep_greedy p (Nat.pred lo) (dec_hi hi) (Some c) x' k with
        | Some r => Some r
        | None => stop
        end
      else stop
  | [] => stop
  end.

Fixpoint run (r : re) (st : mstate) (k : mstate -> option R) {struct r}
  : option R :=
  match r with
  | Eps => k st
  | At a =>
      match rest st with
      | c :: t => if atom_match f a c
                  then k {| prev := Some c; rest := t; grp := grp st |}
                  else None
      | [] => None
      end
  | Bol => if at_bol f st then k st else None
  | Eol => if at_eol f st then k st else None
  | Seq r1 r2 => run r1 st (fun st' => run r2 st' k)
  | Alt r1 r2 =>
      match run r1 st k with
      | Some v => Some v
      | None => run r2 st k
      end
  | Opt r1 =>
      match run r1 st k with
      | Some v => Some v
      | None => k st
      end
  | Rep a lo hi =>
      rep_greedy (atom_match f a) lo hi (prev st) (rest st)
        (fun pv x => k {| prev := pv; rest := x; grp := grp st |})
  | Group r1 =>
      run r1 st (fun st' =>
        k {| prev := prev st'; rest := rest st';
             grp := Some (firstn (length (rest st) - length (rest st'))
                                 (rest st)) |})
  end.

End Matcher.

(** A compiled pattern. *)
Record pattern : Type := { p_flags : flags; p_re : re }.

(** [m.group(1)] of the match starting at the given position, if the
    pattern matches there. *)
Definition match_here (p : pattern) (pv : option ascii) (x : str)
  : option (option str) :=
  run (p_flags p) (p_re p) {| prev := pv; rest := x; grp := None |}
      (fun st => Some (grp st)).

(** [pattern.search]: the match at the leftmost position that has one. *)
Fixpoint search_from (p : pattern) (pv : option ascii) (x : str)
  : option (option str) :=
  match match_here p pv x with
  | Some g => Some g
  | None => match x with
            | [] => None
            | c :: x' => search_from p (Some c) x'
            end
  end.

Definition search (p : pattern) (x : str) : option (option str) :=
  search_from p None x.

(** A word, character by character. *)
Fixpoint word (w : str) : re :=
  match w with
  | [] => Eps
  | c :: w' => Seq (At (Lit c)) (word w')
  end.

Definition lits (w : string) : re := word (txt w).

Fixpoint alts (rs : list re) : re :=
  match rs with
  | [] => Eps
  | r :: rs' => match rs' with
                | [] => r
                | _ :: _ => Alt r (alts rs')
                end
  end.

Fixpoint seqs (rs : list re) : re :=
  match rs with
  | [] => Eps
  | r :: rs' => Seq r (seqs rs')
  end.

End Re.

Import Re.

(** ** Heuristic parsing *)

Definition IM : flags := {| ignorecase := true; multiline := true |}.

(** [[:\-\s]{0,5}] *)
Definition sep_chars : atom :=
  OneOf [SChar ":"%char; SChar "-"%char; SSpace].

Definition separator : re := Rep sep_chars 0 (Some 5).

(** [(?im)^\s*(?:Tender(?:\s+Title)?|Title|Project)[:\-\s]{0,5}(.+)$] *)
Definition RE_TITLE : pattern :=
  {| p_flags := IM;
     p_re := seqs
       [ Bol; Rep Space 0 None;
         alts [ Seq (lits "Tender")
                    (Opt (Seq (Rep Space 1 None) (lits "Title")));
                lits "Title"; lits "Project" ];
         separator; Group (Rep Dot 1 None); Eol ] |}.

(** [(?im)(?:Reference|Ref|Tender\s+No\.?|Tender\s+ID)[:\-\s]{0,5}([A-Z0-9\-_/]+)] *)
Definition ref_chars : atom :=
  OneOf [SRange "A"%char "Z"%char; SRange "0"%char "9"%char;
         SChar "-"%char; SChar "_"%char; SChar "/"%char].

Definition RE_REF : pattern :=
  {| p_flags := IM;
     p_re := seqs
       [ alts [ lits "Reference"; lits "Ref";
                seqs [lits "Tender"; Rep Space 1 None; lits "No";
                      Opt (At (Lit "."%char))];
                seqs [lits "Tender"; Rep Space 1 None; lits "ID"] ];
         separator; Group (Rep ref_chars 1 None) ] |}.

(** [(?im)^(?:Issued\s+By|Issuing\s+Organization|Organization|Procurement\s+Entity|Issued\s+To)[:\-\s]{0,5}(.+)$] *)
Definition RE_ORG : pattern :=
  {| p_flags := IM;
     p_re := seqs
       [ Bol;
         alts [ seqs [lits "Issued"; Rep Space 1 None; lits "By"];
                seqs [lits "Issuing"; Rep Space 1 None; lits "Organization"];
                lits "Organization";
                seqs [lits "Procurement"; Rep Space 1 None; lits "Entity"];
                seqs [lits "Issued"; Rep Space 1 None; lits "To"] ];
         separator; Group (Rep Dot 1 None); Eol ] |}.

(** [(?im)(?:Closing\s+Date|Deadline|Bid\s+Submission\s+Deadline|Submission\s+Deadline)[:\-\s]{0,5}(.+)$] *)
Definition RE_DATE : pattern :=
  {| p_flags := IM;
     p_re := seqs
       [ alts [ seqs [lits "Closing"; Rep Space 1 None; lits "Date"];
                lits "Deadline";
                seqs [lits "Bid"; Rep Space 1 None; lits "Submission";
                      Rep Space 1 None; lits "Deadline"];
                seqs [lits "Submission"; Rep Space 1 None; lits "Deadline"] ];
         separator; Group (Rep Dot 1 None); Eol ] |}.

(** [first_match]: [m.group(1)] is [None] when group 1 took no part in the
    match, and [None.strip()] raises. *)
Definition first_match (p : pattern) (text : str) : result (option str) :=
  match search p text with
  | None => Ok None
  | Some None => Raise (AttributeError (txt "'NoneType' object has no attribute 'strip'"))
  | Some (Some g) => Ok (Some (strip g))
  end.

(** ** Date normalization *)

(** A [datetime.datetime]; [utcoffset] is in seconds, [None] for a naive
    value. *)
Record datetime : Type :=
  { year : N; month : N; day : N;
    hour : N; minute : N; second : N; microsecond : N;
    utcoffset : option Z }.

Definition digit (n : N) : ascii := ascii_of_N (48 + n mod 10).

(** [n] in decimal on [w] digits, zero-padded (the low [w] digits). *)
Fixpoint zpad (w : nat) (n : N) : str :=
  match w with
  | O => []
  | S w' => zpad w' (n / 10) ++ [digit n]
  end.

Definition iso_offset (off : option Z) : str :=
  match off with
  | None => []
  | Some z =>
      let a := Z.to_N (Z.abs z) in
      [if (z <? 0)%Z then "-"%char else "+"%char]
      ++ zpad 2 (a / 3600) ++ txt ":" ++ zpad 2 (a / 60 mod 60)
      ++ (if (a mod 60 =? 0)%N then [] else txt ":" ++ zpad 2 (a mod 60))
  end.

(** [datetime.isoformat()]. *)
Definition isoformat (dt : datetime) : str :=
  zpad 4 (year dt) ++ txt "-" ++ zpad 2 (month dt) ++ txt "-"
  ++ zpad 2 (day dt) ++ txt "T" ++ zpad 2 (hour dt) ++ txt ":"
  ++ zpad 2 (minute dt) ++ txt ":" ++ zpad 2 (second dt)
  ++ (if (microsecond dt =? 0)%N then []
      else txt "." ++ zpad 6 (microsecond dt))
  ++ iso_offset (utcoffset dt).

(** The [dateutil.parser] module when it could be imported: its
    [parse(date_str, fuzzy=True)], which raises on text it cannot read. *)
Definition dateparser_t : Type := option (str -> result datetime).

Definition normalize_date (dateparser : dateparser_t) (date_str : option str)
  : option str :=
  match date_str with
  | None => None
  | Some d =>
      if is_empty d then None
      else match dateparser with
           | None => Some d
           | Some parse =>
               match parse d with
               | Ok dt => Some (isoformat dt)
               | Raise _ => Some d
               end
           end
  end.

(** ** The field parser *)

(** A Python dict with string keys, in insertion order. *)
Definition dict (V : Type) : Type := list (string * V).

Fixpoint dict_get {V : Type} (d : dict V) (key : string) : option V :=
  match d with
  | [] => None
  | (k, v) :: d' => if String.eqb k key then Some v else dict_get d' key
  end.

Definition keys {V : Type} (d : dict V) : list string := map fst d.

(** [[l.strip() for l in lines if l.strip()]] joined by newlines. *)
Definition full_view (lines : list str) : str :=
  join [LF] (map strip (filter (fun l => negb (is_empty (strip l))) lines)).

(** The title fallback: the loop over the original lines. *)
Fixpoint fallback_title (lines : list str) : option str :=
  match lines with
  | [] => None
  | l :: ls =>
      let t := strip l in
      match t with
      | [] => fallback_title ls
      | c :: _ => if (10 <? length t) && isupper c then Some t
                  else fallback_title ls
      end
  end.

(** [not title] for an optional string. *)
Definition falsy (x : option str) : bool :=
  match x with
  | None => true
  | Some v => is_empty v
  end.

Definition parse_tender_text (dateparser : dateparser_t) (text : str)
  : result (dict (option str)) :=
  let lines := splitlines text in
  let full := full_view lines in
  title <- first_match RE_TITLE full ;;
  ref <- first_match RE_REF full ;;
  org <- first_match RE_ORG full ;;
  date <- first_match RE_DATE full ;;
  let title := if falsy title then fallback_title lines else title in
  let normalized_date := normalize_date dateparser date in
  Ok [ ("title"%string, title); ("reference"%string, ref);
       ("organization"%string, org);
       ("closing_date"%string, normalized_date) ].

(** ** The text extractor *)

(** What PyMuPDF hands back for a page: its embedded text and its
    rasterization at a resolution, either of which may raise. *)
Record Pixmap : Type :=
  { pix_n : nat; pix_width : nat; pix_height : nat; pix_samples : list ascii }.

Record Page : Type :=
  { get_text : result str;                  (* page.get_text("text") *)
    get_pixmap : nat -> result Pixmap }.    (* page.get_pixmap(dpi=dpi) *)

(** A document as PyMuPDF opened it: for each page number below
    [len(doc)], what [doc.load_page] gives.  Loading may raise although
    the document opened (an encrypted document does so). *)
Definition Document : Type := list (result Page).

Record Img : Type :=
  { img_mode : string; img_size : nat * nat; img_data : list ascii }.

(** The optional modules: each is [None] when its import failed. *)
Record Modules : Type :=
  { fitz : option (str -> result Document);                (* fitz.open *)
    Image : option (string -> nat * nat -> list ascii -> result Img);
                                                           (* Image.frombytes *)
    pytesseract : option (Img -> result str);              (* image_to_string *)
    dateparser : dateparser_t }.

(** The body of the loop over the pages: the text the page contributes. *)
Definition page_text (env : Modules) (force_ocr : bool) (dpi : nat)
    (page : Page) : result str :=
  text <- (if negb force_ocr
           then try_except (get_text page) (fun _ => Ok [])
           else Ok []) ;;
  if negb (is_empty text) && negb (is_empty (strip text)) && negb force_ocr
  then Ok text
  else
    match pytesseract env, Image env with
    | Some image_to_string, Some frombytes =>
        pix <- get_pixmap page dpi ;;
        let mode := if pix_n pix <? 4 then "RGB"%string else "RGBA"%string in
        img <- frombytes mode (pix_width pix, pix_height pix)
                         (pix_samples pix) ;;
        image_to_string img
    | _, _ => Ok []
    end.

(** The loop over the page numbers; [doc.load_page] stands outside
    every handler. *)
Fixpoint pages_text (env : Modules) (force_ocr : bool) (dpi : nat)
    (doc : Document) : result (list str) :=
  match doc with
  | [] => Ok []
  | load_page :: doc' =>
      page <- load_page ;;
      t <- page_text env force_ocr dpi page ;;
      ts <- pages_text env force_ocr dpi doc' ;;
      Ok (t :: ts)
  end.

Definition extract_text_from_pdf (env : Modules) (path : str)
    (force_ocr : bool) (dpi : nat) : result str :=
  match fitz env with
  | None =>
      Raise (RuntimeError
        (txt "PyMuPDF (fitz) is required. Install with 'pip install pymupdf'."))
  | Some open =>
      doc <- open path ;;
      ts <- pages_text env force_ocr dpi doc ;;
      Ok (join [LF] ts)
  end.

(** ** The orchestrator *)

Record AnalysisResult : Type :=
  { ar_path : str; ar_parsed : dict (option str); ar_text_snippet : str }.

Definition analyze_file (env : Modules) (path : str) (force_ocr : bool)
    (dpi : nat) : result AnalysisResult :=
  text <- extract_text_from_pdf env path force_ocr dpi ;;
  parsed <- parse_tender_text (dateparser env) text ;;
  Ok {| ar_path := path; ar_parsed := parsed;
        ar_text_snippet := firstn 200 text |}.

Record Args : Type :=
  { arg_path : str; arg_json : bool; arg_ocr : bool; arg_dpi : nat }.

(** What a run leaves behind: the lines printed on each stream and the
    exit status. *)
Record Outcome : Type :=
  { stdout : list str; stderr : list str; exit_status : nat }.

(** [f"{v}"] for an optional string. *)
Definition format_value (v : option str) : str :=
  match v with
  | None => txt "None"
  | Some x => x
  end.

Section CLI.

(** [json.dumps] on the analysis result. *)
Variable json_dumps : AnalysisResult -> str.

(** [print(line)] on standard output, after the lines written so far:
    [Some e] when the call raises (UnicodeEncodeError for a line the
    encoding of the stream cannot represent), and then the line is not
    written.  The print on [sys.stderr] does not raise for such a line:
    that stream escapes what it cannot encode. *)
Variable print_stdout : list str -> str -> option exn.

(** The prints of the [try] block in order, up to the first that raises:
    the lines on standard output afterwards, and the exception if any. *)
Fixpoint print_lines (written lines : list str) : list str * option exn :=
  match lines with
  | [] => (written, None)
  | l :: ls =>
      match print_stdout written l with
      | Some e => (written, Some e)
      | None => print_lines (written ++ [l]) ls
      end
  end.

(** What a run prints of an analysis, one element per [print]. *)
Definition report (args : Args) (result : AnalysisResult) : list str :=
  if arg_json args then [json_dumps result]
  else (txt "Analyzed: " ++ arg_path args)
       :: map (fun kv => txt (fst kv) ++ txt ": " ++ format_value (snd kv))
              (ar_parsed result).

(** The analysis and the prints stand in one [try]: an exception of
    either is caught, reported on the error stream, and the run exits
    with status 1, what was printed before staying printed. *)
Definition main (env : Modules) (args : Args) : Outcome :=
  match analyze_file env (arg_path args) (arg_ocr args) (arg_dpi args) with
  | Ok result =>
      match print_lines [] (report args result) with
      | (written, None) =>
          {| stdout := written; stderr := []; exit_status := 0 |}
      | (written, Some e) =>
          {| stdout := written;
             stderr := [txt "Error: " ++ exn_message e];
             exit_status := 1 |}
      end
  | Raise e =>
      {| stdout := [];
         stderr := [txt "Error: " ++ exn_message e];
         exit_status := 1 |}
  end.

End CLI.

(** * Vocabulary of the properties *)

(** ** What the parser computes *)

(** The stripped capture of the first match, [None] without a match. *)
Definition captured (p : pattern) (full : str) : option str :=
  option_map strip (match search p full with
                    | Some g => g
                    | None => None
                    end).

(** The title: the labelled one, or else the fallback. *)
Definition title_of (lines : list str) : option str :=
  let t := captured RE_TITLE (full_view lines) in
  if falsy t then fallback_title lines else t.

(** Whether every way through [r] passes a group. *)
Fixpoint sets_group (r : re) : bool :=
  match r with
  | Group _ => true
  | Seq r1 r2 => sets_group r1 || sets_group r2
  | Alt r1 r2 => sets_group r1 && sets_group r2
  | _ => false
  end.

(** ** Tests on strings *)

Fixpoint starts_with (p x : str) : bool :=
  match p, x with
  | [], _ => true
  | _ :: _, [] => false
  | a :: p', b :: x' => Ascii.eqb a b && starts_with p' x'
  end.

(** [needle in hay]. *)
Fixpoint contains (needle hay : str) : bool :=
  starts_with needle hay ||
  match hay with
  | [] => false
  | _ :: hay' => contains needle hay'
  end.

Definition ci_eqb (c d : ascii) : bool := Ascii.eqb (lower c) (lower d).

(** [x] begins with [w], letter case ignored. *)
Fixpoint ci_starts_with (w x : str) : bool :=
  match w, x with
  | [], _ => true
  | _ :: _, [] => false
  | d :: w', c :: x' => ci_eqb c d && ci_starts_with w' x'
  end.

(** No character of [w] is [c], in any letter case. *)
Definition lacks (w : str) (c : ascii) : bool :=
  forallb (fun d => negb (ci_eqb c d)) w.

(** Some position of [u], read on into [v], satisfies [q]. *)
Fixpoint any_start (q : str -> bool) (u v : str) : bool :=
  match u with
  | [] => false
  | _ :: u' => q (u ++ v) || any_start q u' v
  end.

(** [y] is empty or its first character fails [p]. *)
Definition head_fails (p : ascii -> bool) (y : str) : bool :=
  match y with
  | [] => true
  | c :: _ => negb (p c)
  end.

Definition no_space_at_head (x : str) : bool :=
  match x with
  | [] => true
  | c :: _ => negb (isspace c)
  end.

Definition no_space_at_end (x : str) : bool := no_space_at_head (rev x).

Definition no_break (l : str) : bool :=
  forallb (fun c => negb (is_linebreak c)) l.

Definition no_lf (l : str) : bool :=
  forallb (fun c => negb (Ascii.eqb c LF)) l.

(** The value begins with neither a colon nor a dash (and is not empty). *)
Definition plain_start (x : str) : bool :=
  match x with
  | [] => false
  | c :: _ => negb (Ascii.eqb c ":") && negb (Ascii.eqb c "-")
  end.

(** ** Lines and the view the patterns search *)

(** A line the view keeps. *)
Definition nonblank (l : str) : bool := negb (is_empty (strip l)).

(** Lines, each with its newline. *)
Definition lines_block (ls : list str) : str :=
  concat (map (fun l => l ++ [LF]) ls).

(** What follows a line of the view: nothing, or a newline and the
    remaining lines. *)
Definition after_line (ls : list str) : str :=
  match ls with
  | [] => []
  | _ :: _ => LF :: join [LF] ls
  end.

(** The text as the parser reads it, before and after a place on a
    line: lines trimmed, blank lines dropped, joined by newlines. *)
Definition view_before (pre : list str) (a : str) : str :=
  lines_block (map strip (filter nonblank pre)) ++ lstrip a.

Definition view_after (b : str) (post : list str) : str :=
  rstrip b ++ after_line (map strip (filter nonblank post)).

(** A line the title fallback accepts: trimmed, it is not empty, is
    longer than 10 characters and begins with an upper-case character. *)
Definition eligible (l : str) : bool :=
  let t := strip l in
  negb (is_empty t) && (10 <? length t)
  && match t with
     | c :: _ => isupper c
     | [] => false
     end.

(** ** Positions of the matcher *)

(** The character read last after [x] was consumed. *)
Definition advance (pv : option ascii) (x : str) : option ascii :=
  fold_left (fun _ c => Some c) x pv.

(** The previous character puts the position at the start of a line. *)
Definition line_start (pv : option ascii) : bool :=
  match pv with
  | None => true
  | Some c => Ascii.eqb c LF
  end.

(** ** Character classes and labels of the patterns *)

(** The characters [[:\-\s]] accepts. *)
Definition is_sep_char (c : ascii) : bool :=
  Ascii.eqb c ":" || Ascii.eqb c "-" || isspace c.

(** The characters of the model (code points 0..255) that
    [[A-Z0-9\-_/]] accepts under IGNORECASE: the ASCII letters and digits,
    the dash, the underscore and the slash.  Beyond that range the set
    also accepts the four letters that fold onto i, s and k (U+0130,
    U+0131, U+017F, U+212A); they cannot occur in the texts modelled
    here. *)
Definition is_ref_char (c : ascii) : bool :=
  in_range 65 90 c || in_range 97 122 c || in_range 48 57 c
  || Ascii.eqb c "-" || Ascii.eqb c "_" || Ascii.eqb c "/".

(** The alphabet [[A-Z0-9\-_/]] as written. *)
Definition ref_alphabet (c : ascii) : bool :=
  in_range 65 90 c || in_range 48 57 c
  || Ascii.eqb c "-" || Ascii.eqb c "_" || Ascii.eqb c "/".

(** [x] begins with Tender, whitespace, and No or ID, in any letter
    case. *)
Definition tender_label_start (x : str) : bool :=
  ci_starts_with (txt "Tender") x
  && negb (no_space_at_head (skipn 6 x))
  && (ci_starts_with (txt "No") (lstrip (skipn 6 x))
      || ci_starts_with (txt "ID") (lstrip (skipn 6 x))).

(** [x] begins with one of the labels of the reference pattern. *)
Definition ref_label_start (x : str) : bool :=
  ci_starts_with (txt "Ref") x || tender_label_start x.

(** [x] begins with one of the labels of the title pattern. *)
Definition title_label_start (x : str) : bool :=
  ci_starts_with (txt "Tender") x || ci_starts_with (txt "Title") x
  || ci_starts_with (txt "Project") x.

(** The line, trimmed, begins with no label of the title pattern. *)
Definition no_title_label (p : str) : bool := negb (title_label_start (strip p)).

(** A line of the view at which the title pattern cannot match. *)
Definition good_line (a : str) : bool :=
  negb (is_empty a) && no_space_at_head a && no_lf a
  && negb (title_label_start a).

(** ** Shapes of captures *)

(** The text stops here or a newline follows. *)
Definition at_line_end (v : str) : bool :=
  match v with
  | [] => true
  | c :: _ => Ascii.eqb c LF
  end.

(** A capture of the title, organization and date patterns: a stretch of
    the text without a newline, not empty, that runs to the end of a
    line. *)
Definition line_capture (text : str) (g : option str) : Prop :=
  exists u w v, g = Some w /\ text = u ++ w ++ v /\ w <> []
                /\ no_lf w = true /\ at_line_end v = true.

(** A capture of the reference pattern: reference characters only, at
    least one. *)
Definition ref_capture (g : option str) : Prop :=
  exists w, g = Some w /\ w <> [] /\ forallb is_ref_char w = true.

(** A line of the view: trimmed, not empty, without a newline. *)
Definition view_line (e : str) : bool :=
  negb (is_empty e) && no_space_at_end e && no_lf e.

(** Patterns that end in [(.+)$]. *)
Definition ends_with_line (p : pattern) : Prop :=
  p_flags p = IM
  /\ exists rs, p_re p = seqs (rs ++ [Group (Rep Dot 1 None); Eol]).

(** ** Example inputs *)

(** The four-line sample of the specification. *)
Definition sample : str :=
  txt "Tender Title: Construction of New Bridge" ++ [LF] ++
  txt "Reference: TB-2025-00123" ++ [LF] ++
  txt "Issuing Organization: City Public Works Department" ++ [LF] ++
  txt "Closing Date: 30 September 2025".

(** The text of [test_parse_basic_fields]: the same four lines, indented,
    between a leading and a trailing line break. *)
Definition test_sample : str :=
  [LF] ++
  txt "    Tender Title: Construction of New Bridge" ++ [LF] ++
  txt "    Reference: TB-2025-00123" ++ [LF] ++
  txt "    Issuing Organization: City Public Works Department" ++ [LF] ++
  txt "    Closing Date: 30 September 2025" ++ [LF] ++
  txt "    ".

(** The values of a record, for display. *)
Definition values (r : result (dict (option str)))
  : list (option string) :=
  match r with
  | Ok d => map (fun kv => option_map string_of_list_ascii (snd kv)) d
  | Raise _ => []
  end.

Definition dash_title : str := txt "Tender Title: -A".

Definition dash_reference : str := txt "Reference: -A".

Definition notice : str :=
  txt "Notice 12 of 2025" ++ [CR; LF] ++
  txt "  Tender Title:   Bridge Works  " ++ [LF] ++
  txt "see Reference: TB-2025/07, lot 2" ++ [LF].

Definition untitled : str :=
  txt "  page 1" ++ [LF] ++ txt "short Line" ++ [LF] ++
  txt "   Supply of Office Furniture  " ++ [LF] ++ txt "Another Long Heading".

Definition no_heading : str := txt "short" ++ [LF] ++ txt "lower case line".

(** A date library that reads every text as midnight, 30 September 2025. *)
Definition fixed_parser : dateparser_t :=
  Some (fun _ => Ok {| year := 2025; month := 9; day := 30;
                       hour := 0; minute := 0; second := 0;
                       microsecond := 0; utcoffset := None |}).

(** A page with embedded text whose rasterization works. *)
Definition text_page (t : str) : Page :=
  {| get_text := Ok t;
     get_pixmap := fun _ => Ok {| pix_n := 3; pix_width := 1; pix_height := 1;
                                  pix_samples := [] |} |}.

(** A scanned page: no embedded text. *)
Definition scanned_page : Page := text_page [].

(** A document all of whose pages load. *)
Definition loaded (pages : list Page) : Document := map Ok pages.

(** PyMuPDF present, the OCR engine absent. *)
Definition no_ocr_env (pages : list Page) : Modules :=
  {| fitz := Some (fun _ => Ok (loaded pages)); Image := None;
     pytesseract := None; dateparser := None |}.

Definition three_pages : list Page :=
  [text_page (txt "a"); scanned_page; text_page (txt "b")].

(** Every optional module present, but the OCR engine raises when it is
    called (the [pytesseract] package imports although the tesseract
    program is not installed). *)
Definition broken_ocr_env (pages : list Page) : Modules :=
  {| fitz := Some (fun _ => Ok (loaded pages));
     Image := Some (fun m sz d => Ok {| img_mode := m; img_size := sz;
                                        img_data := d |});
     pytesseract := Some (fun _ => Raise (OtherError
                            (txt "tesseract is not installed")));
     dateparser := None |}.

(** ** The parts of the patterns *)

(** [[:\-\s]{0,5}(.+)$], the part the title, organization and date
    patterns share. *)
Definition value_tail : re :=
  seqs [separator; Group (Rep Dot 1 None); Eol].

(** The patterns up to their labels. *)
Definition title_head : re :=
  seqs [ Bol; Rep Space 0 None;
         alts [ Seq (lits "Tender")
                    (Opt (Seq (Rep Space 1 None) (lits "Title")));
                lits "Title"; lits "Project" ] ].

Definition org_head : re :=
  seqs [ Bol;
         alts [ seqs [lits "Issued"; Rep Space 1 None; lits "By"];
                seqs [lits "Issuing"; Rep Space 1 None; lits "Organization"];
                lits "Organization";
                seqs [lits "Procurement"; Rep Space 1 None; lits "Entity"];
                seqs [lits "Issued"; Rep Space 1 None; lits "To"] ] ].

Definition date_head : re :=
  seqs [ alts [ seqs [lits "Closing"; Rep Space 1 None; lits "Date"];
                lits "Deadline";
                seqs [lits "Bid"; Rep Space 1 None; lits "Submission";
                      Rep Space 1 None; lits "Deadline"];
                seqs [lits "Submission"; Rep Space 1 None; lits "Deadline"] ] ].

(** The reference pattern up to its labels, and from there on. *)
Definition ref_head : re :=
  seqs [ alts [ lits "Reference"; lits "Ref";
                seqs [lits "Tender"; Rep Space 1 None; lits "No";
                      Opt (At (Lit "."%char))];
                seqs [lits "Tender"; Rep Space 1 None; lits "ID"] ] ].

Definition ref_tail : re :=
  seqs [separator; Group (Rep ref_chars 1 None)].

(** The labels, as they are written before a colon. *)
Definition title_labels : list string :=
  [ "Tender Title"; "Tender"; "Title"; "Project" ]%string.

Definition org_labels : list string :=
  [ "Issued By"; "Issuing Organization"; "Organization";
    "Procurement Entity"; "Issued To" ]%string.

Definition date_labels : list string :=
  [ "Closing Date"; "Deadline"; "Bid Submission Deadline";
    "Submission Deadline" ]%string.

Definition ref_labels : list string :=
  [ "Reference"; "Ref"; "Tender No"; "Tender No."; "Tender ID" ]%string.

(** [x] begins with the first word of a label of the organization
    pattern, in any letter case. *)
Definition org_label_start (x : str) : bool :=
  ci_starts_with (txt "Issued") x || ci_starts_with (txt "Issuing") x
  || ci_starts_with (txt "Organization") x
  || ci_starts_with (txt "Procurement") x.

(** The line, trimmed, begins with no label of the organization
    pattern. *)
Definition no_org_label (p : str) : bool := negb (org_label_start (strip p)).

(** [x] begins with the first word of a label of the date pattern, in any
    letter case. *)
Definition date_label_start (x : str) : bool :=
  ci_starts_with (txt "Closing") x || ci_starts_with (txt "Deadline") x
  || ci_starts_with (txt "Bid") x || ci_starts_with (txt "Submission") x.

(** A line of the view at which a pattern anchored to the line start
    cannot match: none of its labels, recognized by [q], begins it. *)
Definition clear_line (q : str -> bool) (a : str) : bool :=
  negb (is_empty a) && no_space_at_head a && no_lf a && negb (q a).

(** ** Values of the fields *)

(** The lines the parser works on: trimmed, the blank ones dropped. *)
Definition trimmed_lines (text : str) : list str :=
  map strip (filter nonblank (splitlines text)).

(** A trimmed line the title fallback accepts. *)
Definition long_capital (t : str) : bool :=
  (10 <? length t)
  && match t with
     | c :: _ => isupper c
     | [] => false
     end.

(** A clean value: not empty, trimmed, and on one line. *)
Definition clean (w : str) : bool :=
  negb (is_empty w) && no_space_at_head w && no_space_at_end w && no_break w.

(** A property of a field when it is not null. *)
Definition when_set (P : str -> Prop) (v : option str) : Prop :=
  match v with
  | None => True
  | Some w => P w
  end.

(** The record without a value. *)
Definition all_null : dict (option str) :=
  [ ("title"%string, None); ("reference"%string, None);
    ("organization"%string, None); ("closing_date"%string, None) ].

(** A character of the view: a newline, or no line boundary at all. *)
Definition view_char (c : ascii) : bool :=
  Ascii.eqb c LF || negb (is_linebreak c).

(** ** Pages of a document *)

(** What a page contributes without OCR: its embedded text when that is
    not blank, the empty string otherwise (also when the retrieval
    raises). *)
Definition embedded_text (page : Page) : str :=
  match get_text page with
  | Ok t => if negb (is_empty t) && negb (is_empty (strip t)) then t else []
  | Raise _ => []
  end.

(** The page has embedded text that is not blank. *)
Definition has_text (page : Page) : bool :=
  match get_text page with
  | Ok t => negb (is_empty (strip t))
  | Raise _ => false
  end.

(** The OCR branch of the loop: the page rasterized, wrapped as an image
    and read; the empty string when a module is missing. *)
Definition ocr_text (env : Modules) (dpi : nat) (page : Page) : result str :=
  match pytesseract env, Image env with
  | Some image_to_string, Some frombytes =>
      pix <- get_pixmap page dpi ;;
      let mode := if pix_n pix <? 4 then "RGB"%string else "RGBA"%string in
      img <- frombytes mode (pix_width pix, pix_height pix)
                       (pix_samples pix) ;;
      image_to_string img
  | _, _ => Ok []
  end.

(** The page takes the OCR branch. *)
Definition needs_ocr (force_ocr : bool) (page : Page) : bool :=
  force_ocr || negb (has_text page).

(** What a page contributes when its OCR, if it needs one, works. *)
Definition contribution (env : Modules) (force_ocr : bool) (dpi : nat)
    (page : Page) : str :=
  if needs_ocr force_ocr page
  then match ocr_text env dpi page with
       | Ok t => t
       | Raise _ => []
       end
  else embedded_text page.

(** The page contributes without an error. *)
Definition readable (env : Modules) (force_ocr : bool) (dpi : nat)
    (page : Page) : bool :=
  negb (needs_ocr force_ocr page)
  || match ocr_text env dpi page with
     | Ok _ => true
     | Raise _ => false
     end.

(** The same modules with another document, whose pages load, behind
    [fitz.open]. *)
Definition with_document (env : Modules) (pages : list Page) : Modules :=
  {| fitz := Some (fun _ => Ok (loaded pages)); Image := Image env;
     pytesseract := pytesseract env; dateparser := dateparser env |}.

(** ** Further example inputs *)

(** A notice that uses the other labels. *)
Definition call_for_offers : str :=
  txt "CALL FOR OFFERS" ++ [CR; LF] ++ [LF] ++
  txt "   Project:   Harbour Dredging, Phase 2  " ++ [CR; LF] ++
  txt "Procurement Entity: Port Authority" ++ [LF] ++
  txt "Offers are due; Submission Deadline: 5 March 2026 noon" ++ [LF].

(** The sample of the specification as a word processor might export it:
    indented, with trailing blanks, blank lines and other line ends. *)
Definition sample_reflowed : str :=
  [LF] ++ txt "   Tender Title: Construction of New Bridge  " ++ [CR; LF] ++
  [CR] ++ txt "Reference: TB-2025-00123" ++ [CR] ++
  txt "  " ++ [LF] ++
  txt "Issuing Organization: City Public Works Department" ++ [ascii_of_N 12] ++
  txt "Closing Date: 30 September 2025" ++ [LF; LF].

(** A notice that quotes its number in lower case. *)
Definition lot_notice : str :=
  txt "Lot 4 of the harbour works" ++ [LF] ++
  txt "  Quote our Tender No.: hb-2026/04 (in full)" ++ [CR; LF] ++
  txt "Offers by post only" ++ [LF].

(** A page whose embedded-text retrieval raises. *)
Definition damaged_page : Page :=
  {| get_text := Raise (OtherError (txt "cannot read page"));
     get_pixmap := fun _ => Raise (OtherError (txt "cannot render page")) |}.

(** A page whose embedded-text retrieval raises but which renders. *)
Definition garbled_page : Page :=
  {| get_text := Raise (OtherError (txt "cannot read page"));
     get_pixmap := fun _ => Ok {| pix_n := 4; pix_width := 1; pix_height := 1;
                                  pix_samples := [] |} |}.

(** A page without text whose rasterization raises. *)
Definition unrenderable_page : Page :=
  {| get_text := Ok [];
     get_pixmap := fun _ => Raise (OtherError (txt "cannot render page")) |}.

(** No optional module at all. *)
Definition bare_env : Modules :=
  {| fitz := None; Image := None; pytesseract := None; dateparser := None |}.

(** PyMuPDF and an OCR engine that reads every image as the same text. *)
Definition ocr_env (pages : list Page) (seen : str) : Modules :=
  {| fitz := Some (fun _ => Ok (loaded pages));
     Image := Some (fun m sz d => Ok {| img_mode := m; img_size := sz;
                                        img_data := d |});
     pytesseract := Some (fun _ => Ok seen);
     dateparser := None |}.

(** Parsed arguments, at the default resolution. *)
Definition cli_args (path : string) (json ocr : bool) : Args :=
  {| arg_path := txt path; arg_json := json; arg_ocr := ocr; arg_dpi := 200 |}.

(** A document that opens although none of its pages loads, as an
    encrypted document does, behind modules without OCR. *)
Definition locked_document : Document :=
  [Raise (OtherError (txt "document closed or encrypted"))].

Definition locked_env : Modules :=
  {| fitz := Some (fun _ => Ok locked_document); Image := None;
     pytesseract := None; dateparser := None |}.


(** A standard output that takes every line. *)
Definition plain_printer : list str -> str -> option exn :=
  fun _ _ => None.

(** A standard output whose encoding is ASCII: a line with any other
    character raises. *)
Definition ascii_printer : list str -> str -> option exn :=
  fun _ line =>
    if forallb (fun c => (code c <? 128)%N) line then None
    else Some (OtherError (txt "'ascii' codec can't encode character")).

(** A notice whose title begins with a capital E acute (code point
    201). *)
Definition ecole_notice : str :=
  txt "Tender Title: " ++ [ascii_of_N 201] ++ txt "cole primaire" ++ [LF] ++
  txt "Ref: EP-7".

(** A date library that reads a day and a month and, for the year the
    text leaves out, takes the year of the day of the call, as
    [dateutil] does. *)
Definition library_in_year (y : N) : dateparser_t :=
  Some (fun _ => Ok {| year := y; month := 3; day := 5;
                       hour := 0; minute := 0; second := 0;
                       microsecond := 0; utcoffset := None |}).

(** A notice whose deadline names no year. *)
Definition partial_date_notice : str := txt "Deadline: 5 March".

(** * Properties *)

Ltac each_char c :=
  destruct c as [[] [] [] [] [] [] [] []]; vm_compute; reflexivity.

(** ** Facts about strings *)

Lemma forallb_rev {A} (p : A -> bool) l : forallb p (rev l) = forallb p l.
Proof.
  induction l as [|a l IH]; simpl; [reflexivity|].
  rewrite forallb_app, IH. simpl. rewrite andb_true_r. apply andb_comm.
Qed.

Lemma forallb_impl {A} (p q : A -> bool) l :
  (forall a, p a = true -> q a = true) ->
  forallb p l = true -> forallb q l = true.
Proof.
  intros I. induction l as [|a l IH]; simpl; [reflexivity|].
  intros H. apply andb_true_iff in H as [H1 H2]. now rewrite (I a H1), IH.
Qed.

Lemma lstrip_spec x :
  exists u, x = u ++ lstrip x /\ forallb isspace u = true
            /\ no_space_at_head (lstrip x) = true.
Proof.
  induction x as [|c x (u & E & U & H)]; simpl.
  - exists []; auto.
  - destruct (isspace c) eqn:C.
    + exists (c :: u). simpl. rewrite C, U. split; [now f_equal|auto].
    + exists []. simpl. rewrite C. auto.
Qed.

Lemma lstrip_fixed x : no_space_at_head x = true -> lstrip x = x.
Proof.
  destruct x as [|c x]; simpl; [reflexivity|].
  now destruct (isspace c).
Qed.

Lemma lstrip_app_space u x : forallb isspace u = true -> lstrip (u ++ x) = lstrip x.
Proof.
  induction u as [|c u IH]; simpl; [reflexivity|].
  intros H. apply andb_true_iff in H as [-> H]. auto.
Qed.

Lemma lstrip_app x y :
  lstrip x <> [] -> lstrip (x ++ y) = lstrip x ++ y.
Proof.
  induction x as [|c x IH]; simpl; [congruence|].
  destruct (isspace c); auto.
Qed.

Lemma rstrip_spec x :
  exists v, x = rstrip x ++ v /\ forallb isspace v = true
            /\ no_space_at_end (rstrip x) = true.
Proof.
  unfold rstrip, no_space_at_end.
  destruct (lstrip_spec (rev x)) as (u & E & U & H).
  exists (rev u). split; [|split].
  - rewrite <- rev_app_distr, <- E. now rewrite rev_involutive.
  - now rewrite forallb_rev.
  - now rewrite rev_involutive.
Qed.

Lemma rstrip_fixed x : no_space_at_end x = true -> rstrip x = x.
Proof.
  unfold rstrip, no_space_at_end. intros H.
  rewrite lstrip_fixed by assumption. apply rev_involutive.
Qed.

Lemma rstrip_app_space x v : forallb isspace v = true -> rstrip (x ++ v) = rstrip x.
Proof.
  unfold rstrip. intros H. rewrite rev_app_distr.
  rewrite lstrip_app_space; [reflexivity|]. now rewrite forallb_rev.
Qed.

Lemma rstrip_app x y : rstrip y <> [] -> rstrip (x ++ y) = x ++ rstrip y.
Proof.
  unfold rstrip. intros H. rewrite rev_app_distr.
  rewrite lstrip_app.
  - now rewrite rev_app_distr, rev_involutive.
  - intros E. apply H. now rewrite E.
Qed.

Lemma no_space_at_end_app x y :
  y <> [] -> no_space_at_end y = true -> no_space_at_end (x ++ y) = true.
Proof.
  unfold no_space_at_end. intros N H. rewrite rev_app_distr.
  destruct (rev y) as [|c r] eqn:E; [|exact H].
  apply (f_equal (@rev _)) in E. rewrite rev_involutive in E. now subst.
Qed.

Lemma no_space_at_head_app x y :
  x <> [] -> no_space_at_head x = true -> no_space_at_head (x ++ y) = true.
Proof. destruct x; simpl; congruence. Qed.

(** What [strip] leaves: the text between a run of leading and a run of
    trailing whitespace. *)
Lemma strip_spec x :
  exists u v, x = u ++ strip x ++ v
              /\ forallb isspace u = true /\ forallb isspace v = true
              /\ no_space_at_head (strip x) = true
              /\ no_space_at_end (strip x) = true.
Proof.
  unfold strip.
  destruct (rstrip_spec x) as (v & E & V & HE).
  destruct (lstrip_spec (rstrip x)) as (u & E' & U & HH).
  exists u, v. repeat split; try assumption.
  - rewrite app_assoc, <- E'. exact E.
  - destruct (lstrip (rstrip x)) as [|c m] eqn:L; [reflexivity|].
    rewrite E' in HE.
    unfold no_space_at_end in *. rewrite rev_app_distr in HE.
    destruct (rev (c :: m)) as [|d r] eqn:R; [|exact HE].
    apply (f_equal (@rev _)) in R. rewrite rev_involutive in R. discriminate.
Qed.

Lemma strip_framed u m v :
  forallb isspace u = true -> forallb isspace v = true ->
  m <> [] -> no_space_at_head m = true -> no_space_at_end m = true ->
  strip (u ++ m ++ v) = m.
Proof.
  intros U V N H E. unfold strip.
  rewrite app_assoc, rstrip_app_space by assumption.
  rewrite rstrip_app.
  - rewrite rstrip_fixed by assumption.
    rewrite lstrip_app_space by assumption. now apply lstrip_fixed.
  - rewrite rstrip_fixed by assumption. assumption.
Qed.

Lemma strip_around a m b :
  m <> [] -> no_space_at_head m = true -> no_space_at_end m = true ->
  strip (a ++ m ++ b) = lstrip a ++ m ++ rstrip b.
Proof.
  intros N H E. unfold strip.
  assert (R : rstrip (a ++ m ++ b) = a ++ m ++ rstrip b).
  { destruct (rstrip b) as [|c r] eqn:B.
    - destruct (rstrip_spec b) as (v & Eb & V & _). rewrite B in Eb.
      simpl in Eb. subst v.
      rewrite app_assoc, rstrip_app_space by assumption.
      rewrite rstrip_app; rewrite rstrip_fixed by assumption;
        [rewrite app_nil_r; reflexivity | assumption].
    - rewrite app_assoc, rstrip_app by (rewrite B; discriminate).
      now rewrite B, <- app_assoc. }
  rewrite R.
  destruct (lstrip a) as [|c r] eqn:A.
  - destruct (lstrip_spec a) as (u & Ea & U & _). rewrite A, app_nil_r in Ea.
    subst u. rewrite lstrip_app_space by assumption.
    simpl app. apply lstrip_fixed. now apply no_space_at_head_app.
  - rewrite lstrip_app by (rewrite A; discriminate). now rewrite A.
Qed.

Lemma forallb_no_space_ends (p : ascii -> bool) x :
  (forall c, p c = true -> isspace c = false) ->
  forallb p x = true ->
  no_space_at_head x = true /\ no_space_at_end x = true.
Proof.
  intros I H. split.
  - destruct x as [|c x]; [reflexivity|]. simpl in *.
    apply andb_true_iff in H as [H _]. now rewrite (I c H).
  - unfold no_space_at_end. rewrite <- forallb_rev in H.
    destruct (rev x) as [|c r]; [reflexivity|]. simpl in *.
    apply andb_true_iff in H as [H _]. now rewrite (I c H).
Qed.

Lemma splitlines_no_break_len n : forall x,
  length x <= n -> Forall (fun l => no_break l = true) (splitlines x).
Proof.
  induction n as [|n IH]; intros x L.
  - destruct x; [constructor | simpl in L; lia].
  - destruct x as [|c x]; [constructor|]. simpl in L. simpl.
    destruct (Ascii.eqb c CR).
    + destruct x as [|d x]; [repeat constructor|].
      simpl in L. destruct (Ascii.eqb d LF); constructor;
        try reflexivity; apply IH; simpl; lia.
    + destruct (is_linebreak c) eqn:B.
      * constructor; [reflexivity | apply IH; lia].
      * assert (H : Forall (fun l => no_break l = true) (splitlines x))
          by (apply IH; lia).
        destruct (splitlines x) as [|l ls].
        -- repeat constructor. simpl. now rewrite B.
        -- inversion H; subst. constructor; [|assumption].
           simpl. now rewrite B.
Qed.

Lemma splitlines_no_break x :
  Forall (fun l => no_break l = true) (splitlines x).
Proof. apply (splitlines_no_break_len (n := length x)). lia. Qed.

Lemma no_break_no_lf l : no_break l = true -> no_lf l = true.
Proof.
  unfold no_break, no_lf. induction l as [|c l IH]; simpl; [reflexivity|].
  intros H. apply andb_true_iff in H as [C H]. rewrite (IH H), andb_true_r.
  destruct (Ascii.eqb c LF) eqn:E; [|reflexivity].
  apply Ascii.eqb_eq in E. subst. discriminate.
Qed.

Lemma no_lf_strip l : no_lf l = true -> no_lf (strip l) = true.
Proof.
  destruct (strip_spec l) as (u & v & E & _). intros H.
  rewrite E in H. unfold no_lf in *.
  rewrite !forallb_app in H.
  apply andb_true_iff in H as [_ H]. now apply andb_true_iff in H as [H _].
Qed.

Lemma join_cons sep a ls :
  ls <> [] -> join sep (a :: ls) = a ++ sep ++ join sep ls.
Proof. destruct ls; [congruence | reflexivity]. Qed.

Lemma join_app_cons A l B :
  join [LF] (A ++ l :: B) = lines_block A ++ l ++ after_line B.
Proof.
  induction A as [|a A IH].
  - destruct B; simpl; [now rewrite app_nil_r | reflexivity].
  - rewrite <- app_comm_cons, join_cons by (now destruct A).
    rewrite IH. unfold lines_block. simpl.
    now rewrite <- !app_assoc.
Qed.

Lemma full_view_split pre l post :
  strip l <> [] ->
  full_view (pre ++ l :: post)
  = lines_block (map strip (filter nonblank pre)) ++ strip l
    ++ after_line (map strip (filter nonblank post)).
Proof.
  intros N. unfold full_view. fold nonblank.
  rewrite filter_app. simpl.
  assert (E : nonblank l = true) by (unfold nonblank; now destruct (strip l)).
  rewrite E, map_app. simpl. apply join_app_cons.
Qed.

Lemma after_line_head ls :
  after_line ls = [] \/ exists t, after_line ls = LF :: t.
Proof. destruct ls; simpl; eauto. Qed.

Lemma firstn_consumed (x y : str) :
  firstn (length (x ++ y) - length y) (x ++ y) = x.
Proof.
  rewrite length_app, Nat.add_sub.
  rewrite firstn_app, Nat.sub_diag, firstn_all. simpl. apply app_nil_r.
Qed.

Lemma starts_with_contains n h : starts_with n h = true -> contains n h = true.
Proof. intros H. destruct h; simpl; rewrite H; reflexivity. Qed.

(** ** Occurrences of a label *)

Lemma ci_starts_with_app_l w1 w2 x :
  ci_starts_with (w1 ++ w2) x = true -> ci_starts_with w1 x = true.
Proof.
  revert x. induction w1 as [|d w1 IH]; intros x; [reflexivity|].
  destruct x as [|c x]; simpl; [discriminate|].
  intros H. apply andb_true_iff in H as [-> H]. simpl. eauto.
Qed.

Lemma ci_starts_with_cut w : forall x c z,
  lacks w c = true ->
  ci_starts_with w (x ++ c :: z) = true -> ci_starts_with w x = true.
Proof.
  induction w as [|d w IH]; intros x c z L H; [reflexivity|].
  simpl in L. apply andb_true_iff in L as [L1 L2].
  destruct x as [|e x]; simpl in *.
  - apply negb_true_iff in L1. now rewrite L1 in H.
  - apply andb_true_iff in H as [-> H]. simpl. eauto.
Qed.

Lemma ci_starts_with_split w : forall x,
  ci_starts_with w x = true ->
  exists x1, x = x1 ++ skipn (length w) x /\ length x1 = length w
             /\ ci_starts_with w x1 = true.
Proof.
  induction w as [|d w IH]; intros x H.
  - exists []. auto.
  - destruct x as [|c x]; [discriminate|]. simpl in H.
    apply andb_true_iff in H as [H1 H2].
    destruct (IH x H2) as (x1 & E & L & C).
    exists (c :: x1). simpl. rewrite H1, C, L. split; [now f_equal | auto].
Qed.

Lemma any_start_false q u v :
  any_start q u v = false ->
  forall u1 u2, u = u1 ++ u2 -> u2 <> [] -> q (u2 ++ v) = false.
Proof.
  intros H u1 u2 -> N. induction u1 as [|c u1 IH].
  - destruct u2 as [|c u2]; [congruence|]. simpl in H.
    now apply orb_false_iff in H as [H _].
  - simpl in H. apply orb_false_iff in H as [_ H]. auto.
Qed.

Lemma view_split pre a m b post :
  m <> [] -> no_space_at_head m = true -> no_space_at_end m = true ->
  full_view (pre ++ (a ++ m ++ b) :: post)
  = view_before pre a ++ m ++ view_after b post.
Proof.
  intros N H E.
  assert (S : strip (a ++ m ++ b) = lstrip a ++ m ++ rstrip b)
    by now apply strip_around.
  rewrite full_view_split
    by (rewrite S; destruct (lstrip a), m; simpl; congruence).
  rewrite S. unfold view_before, view_after. now rewrite <- !app_assoc.
Qed.

Lemma view_after_head p b post :
  p LF = false -> head_fails p b = true ->
  head_fails p (view_after b post) = true.
Proof.
  intros PL B. unfold view_after. destruct (rstrip b) as [|c r] eqn:Rb.
  - destruct (after_line_head (map strip (filter nonblank post)))
      as [-> | (t & ->)]; simpl; [reflexivity | now rewrite PL].
  - destruct (rstrip_spec b) as (v & Eb & _). rewrite Rb in Eb.
    rewrite Eb in B. exact B.
Qed.

(** ** The matcher hands every result to its continuation *)

Section MatcherFacts.

Variable f : flags.
Variable R : Type.

Lemma rep_greedy_result p x : forall lo hi pv (k : option ascii -> str -> option R),
  rep_greedy p lo hi pv x k = None \/
  exists pv' x', rep_greedy p lo hi pv x k = k pv' x'.
Proof.
  induction x as [|c x IH]; intros lo hi pv k; simpl.
  - destruct (Nat.eqb lo 0); eauto.
  - destruct (p c && hi_allows hi).
    + destruct (IH (Nat.pred lo) (dec_hi hi) (Some c) k) as [E | (pv' & x' & E)].
      * rewrite E. destruct (Nat.eqb lo 0); eauto.
      * rewrite E. destruct (k pv' x') eqn:K.
        -- right. exists pv', x'. now rewrite K.
        -- destruct (Nat.eqb lo 0); eauto.
    + destruct (Nat.eqb lo 0); eauto.
Qed.

Lemma run_result r : forall st (k : mstate -> option R),
  run f r st k = None \/
  exists st', run f r st k = k st'
              /\ (grp st <> None -> grp st' <> None)
              /\ (sets_group r = true -> grp st' <> None).
Proof.
  induction r as [ | a | | | r1 IH1 r2 IH2 | r1 IH1 r2 IH2 | r1 IH1
                   | a lo hi | r1 IH1 ]; intros st k; simpl.
  - right; exists st; intuition discriminate.
  - destruct (rest st) as [|c t]; [now left|].
    destruct (atom_match f a c); [|now left].
    right; eexists; split; [reflexivity|]. simpl; intuition discriminate.
  - destruct (at_bol f st); [|now left].
    right; exists st; intuition discriminate.
  - destruct (at_eol f st); [|now left].
    right; exists st; intuition discriminate.
  - destruct (IH1 st (fun st' => run f r2 st' k)) as [E | (s1 & E & G1 & S1)].
    + now left.
    + rewrite E.
      destruct (IH2 s1 k) as [E2 | (s2 & E2 & G2 & S2)]; [now left|].
      right; exists s2; split; [assumption|]. split.
      * auto.
      * intros H. apply orb_true_iff in H as [H|H]; auto.
  - destruct (IH1 st k) as [E | (s1 & E & G1 & S1)].
    + rewrite E.
      destruct (IH2 st k) as [E2 | (s2 & E2 & G2 & S2)]; [now left|].
      right; exists s2; split; [assumption|]. split; [auto|].
      intros H. apply andb_true_iff in H as [_ H]; auto.
    + rewrite E. destruct (k s1) eqn:K.
      * right; exists s1; split; [now rewrite K|]. split; [auto|].
        intros H. apply andb_true_iff in H as [H _]; auto.
      * destruct (IH2 st k) as [E2 | (s2 & E2 & G2 & S2)]; [now left|].
        right; exists s2; split; [assumption|]. split; [auto|].
        intros H. apply andb_true_iff in H as [_ H]; auto.
  - destruct (IH1 st k) as [E | (s1 & E & G1 & S1)].
    + rewrite E. right; exists st; intuition discriminate.
    + rewrite E. destruct (k s1) eqn:K.
      * right; exists s1; split; [now rewrite K|]. intuition discriminate.
      * right; exists st; intuition discriminate.
  - destruct (rep_greedy_result (atom_match f a) (rest st) lo hi (prev st)
                (fun pv x => k {| prev := pv; rest := x; grp := grp st |}))
      as [E | (pv' & x' & E)]; [now left|].
    right; eexists; split; [exact E|]. simpl; intuition discriminate.
  - match goal with |- run f r1 st ?K = _ \/ _ =>
      destruct (IH1 st K) as [E | (s1 & E & G1 & S1)] end; [now left|].
    right; eexists; split; [exact E|]. simpl; intuition discriminate.
Qed.

End MatcherFacts.

Lemma match_here_group p pv x :
  sets_group (p_re p) = true -> match_here p pv x <> Some None.
Proof.
  intros G. unfold match_here.
  destruct (run_result (p_flags p) (p_re p)
              {| prev := pv; rest := x; grp := None |}
              (fun st => Some (grp st))) as [E | (st' & E & _ & S)].
  - rewrite E; discriminate.
  - rewrite E. intros H. injection H as H. now apply S.
Qed.

Lemma search_from_group p x :
  sets_group (p_re p) = true -> forall pv, search_from p pv x <> Some None.
Proof.
  intros G. induction x as [|c x IH]; intros pv; simpl.
  - pose proof (match_here_group p pv [] G).
    destruct (match_here p pv []) as [[g|]|]; congruence.
  - pose proof (match_here_group p pv (c :: x) G).
    destruct (match_here p pv (c :: x)) as [[g|]|]; solve [congruence | apply IH].
Qed.

Lemma first_match_total p text :
  sets_group (p_re p) = true ->
  exists v, first_match p text = Ok v
            /\ v = option_map strip (match search p text with
                                     | Some g => g
                                     | None => None
                                     end).
Proof.
  intros G. unfold first_match, search.
  pose proof (search_from_group p text G None).
  destruct (search_from p None text) as [[g|]|]; try congruence; eauto.
Qed.

(** ** Running the matcher on text of a known shape *)

Lemma sep_chars_match c : atom_match IM sep_chars c = is_sep_char c.
Proof. each_char c. Qed.

Lemma ref_chars_match c : atom_match IM ref_chars c = is_ref_char c.
Proof. each_char c. Qed.

Lemma space_is_sep c : isspace c = true -> is_sep_char c = true.
Proof. unfold is_sep_char. intros ->. now rewrite !orb_true_r. Qed.

Lemma ref_alphabet_facts c :
  ref_alphabet c = true ->
  is_ref_char c = true /\ isspace c = false
  /\ (c <> "-"%char -> is_sep_char c = false).
Proof.
  destruct c as [[] [] [] [] [] [] [] []]; vm_compute; intros H;
    try discriminate H; repeat split; congruence.
Qed.

Lemma letter_not_space c d :
  in_range 65 90 d = true -> ci_eqb c d = true -> isspace c = false.
Proof.
  destruct d as [[] [] [] [] [] [] [] []]; try discriminate; intros _;
    destruct c as [[] [] [] [] [] [] [] []]; vm_compute; congruence.
Qed.

Lemma advance_app pv x y : advance pv (x ++ y) = advance (advance pv x) y.
Proof. apply fold_left_app. Qed.

Lemma advance_snoc pv u c : advance pv (u ++ [c]) = Some c.
Proof. now rewrite advance_app. Qed.

Lemma advance_in pv u :
  u <> [] -> exists d, advance pv u = Some d /\ In d u.
Proof.
  intros N. destruct (exists_last N) as (t & d & ->).
  exists d. rewrite advance_snoc. split; [reflexivity|].
  apply in_or_app. right. now left.
Qed.

Section RunFacts.

Variable R : Type.

Lemma rep_greedy_stop p lo hi pv y (k : option ascii -> str -> option R) :
  head_fails p y = true ->
  rep_greedy p lo hi pv y k = if Nat.eqb lo 0 then k pv y else None.
Proof.
  destruct y as [|c y]; simpl; [reflexivity|].
  intros H. apply negb_true_iff in H. now rewrite H.
Qed.

(** With no upper bound, a run of matching characters is taken whole when
    the rest of the pattern accepts what follows it. *)
Lemma rep_greedy_all p w : forall y lo pv (k : option ascii -> str -> option R),
  forallb p w = true -> head_fails p y = true -> lo <= length w ->
  k (advance pv w) y <> None ->
  rep_greedy p lo None pv (w ++ y) k = k (advance pv w) y.
Proof.
  induction w as [|c w IH]; intros y lo pv k W Y L K.
  - simpl in L. assert (lo = 0) by lia. subst.
    rewrite rep_greedy_stop by assumption. reflexivity.
  - simpl in W. apply andb_true_iff in W as [C W].
    simpl. rewrite C. simpl.
    rewrite IH; try assumption; [|simpl in L; lia].
    change (advance (Some c) w) with (advance pv (c :: w)).
    destruct (k (advance pv (c :: w)) y); [reflexivity | congruence].
Qed.

(** With an upper bound, a run of matching characters is taken up to the
    bound when the rest of the pattern accepts what follows. *)
Lemma rep_greedy_bounded p w :
  forall y n pv (k : option ascii -> str -> option R),
  forallb p w = true -> head_fails p y = true ->
  k (advance pv (firstn n w)) (skipn n w ++ y) <> None ->
  rep_greedy p 0 (Some n) pv (w ++ y) k
  = k (advance pv (firstn n w)) (skipn n w ++ y).
Proof.
  induction w as [|c w IH]; intros y n pv k W Y K.
  - rewrite firstn_nil, skipn_nil in *. now rewrite rep_greedy_stop.
  - simpl in W. apply andb_true_iff in W as [C W].
    destruct n as [|n]; simpl.
    + now rewrite C.
    + rewrite C. simpl. simpl in K.
      change (advance pv (c :: firstn n w))
        with (advance (Some c) (firstn n w)) in *.
      rewrite IH by assumption.
      destruct (k (advance (Some c) (firstn n w)) (skipn n w ++ y));
        [reflexivity | congruence].
Qed.

Lemma rep_greedy_upto p w y n pv (k : option ascii -> str -> option R) :
  forallb p w = true -> head_fails p y = true -> length w <= n ->
  k (advance pv w) y <> None ->
  rep_greedy p 0 (Some n) pv (w ++ y) k = k (advance pv w) y.
Proof.
  intros W Y L K.
  rewrite rep_greedy_bounded; try assumption;
    rewrite firstn_all2, skipn_all2 by assumption; [reflexivity | exact K].
Qed.

Lemma rep_greedy_none p x : forall lo hi pv (k : option ascii -> str -> option R),
  (forall pv' x1 x2, x = x1 ++ x2 -> forallb p x1 = true ->
                     lo <= length x1 -> k pv' x2 = None) ->
  rep_greedy p lo hi pv x k = None.
Proof.
  induction x as [|c x IH]; intros lo hi pv k H.
  - simpl. destruct lo; [|reflexivity]. apply (H pv [] []); auto.
  - assert (STOP : (if Nat.eqb lo 0 then k pv (c :: x) else None) = None).
    { destruct lo; [|reflexivity]. apply (H pv [] (c :: x)); auto. }
    simpl. destruct (p c) eqn:C; [|exact STOP].
    destruct (hi_allows hi); [|exact STOP]. simpl.
    rewrite IH; [exact STOP|].
    intros pv' x1 x2 E F L. apply (H pv' (c :: x1) x2).
    + now rewrite E.
    + simpl. now rewrite C.
    + simpl. lia.
Qed.

Lemma run_word_ok w : forall w' x pv g (k : mstate -> option R),
  length w' = length w -> ci_starts_with w w' = true ->
  run IM (word w) {| prev := pv; rest := w' ++ x; grp := g |} k
  = k {| prev := advance pv w'; rest := x; grp := g |}.
Proof.
  induction w as [|d w IH]; intros [|c w'] x pv g k L C; try discriminate.
  - reflexivity.
  - simpl in C. apply andb_true_iff in C as [C1 C2].
    simpl. unfold ci_eqb in C1. rewrite C1.
    rewrite IH; [reflexivity | simpl in L; lia | assumption].
Qed.

Lemma run_word_fail w : forall st (k : mstate -> option R),
  ci_starts_with w (rest st) = false -> run IM (word w) st k = None.
Proof.
  induction w as [|d w IH]; intros st k C; simpl in *; [discriminate|].
  destruct (rest st) as [|c t]; [reflexivity|].
  unfold ci_eqb in C. destruct (Ascii.eqb (lower c) (lower d)); [|reflexivity].
  apply IH. exact C.
Qed.

(** After whitespace, a word whose first character is a capital letter
    is only found where the whitespace ends. *)
Lemma spaces_then_word_none w z pv g (k : mstate -> option R) :
  match w with d :: _ => in_range 65 90 d | [] => false end = true ->
  ci_starts_with w (lstrip z) = false ->
  rep_greedy (atom_match IM Space) 1 None pv z
    (fun pv0 x0 => run IM (word w)
                     {| prev := pv0; rest := x0; grp := g |} k) = None.
Proof.
  intros D H. apply rep_greedy_none. intros pv' x1 x2 E F L.
  apply run_word_fail. cbn [rest].
  destruct (ci_starts_with w x2) eqn:C; [|reflexivity].
  rewrite E, lstrip_app_space in H by exact F.
  destruct w as [|d w]; [discriminate|].
  destruct x2 as [|c x2]; [discriminate|].
  assert (S : isspace c = false).
  { simpl in C. apply andb_true_iff in C as [C _].
    exact (letter_not_space c d D C). }
  rewrite lstrip_fixed in H by (simpl; now rewrite S). congruence.
Qed.

End RunFacts.

(** A search passes over a stretch of text none of whose positions
    starts a match. *)
Lemma search_from_skip p u : forall v pv,
  (forall u1 u2, u = u1 ++ u2 -> u2 <> [] ->
                 match_here p (advance pv u1) (u2 ++ v) = None) ->
  search_from p pv (u ++ v) = search_from p (advance pv u) v.
Proof.
  induction u as [|c u IH]; intros v pv H; [reflexivity|].
  change (search_from p pv ((c :: u) ++ v))
    with (match match_here p pv ((c :: u) ++ v) with
          | Some g => Some g
          | None => search_from p (Some c) (u ++ v)
          end).
  pose proof (H [] (c :: u) eq_refl) as H0. simpl in H0.
  simpl app. rewrite H0 by discriminate.
  rewrite IH; [reflexivity|].
  intros u1 u2 E N. apply (H (c :: u1) u2); [now rewrite E | assumption].
Qed.

Lemma search_from_here p pv x g :
  match_here p pv x = Some g -> search_from p pv x = Some g.
Proof. intros H. destruct x; simpl; now rewrite H. Qed.

(** ** The reference pattern *)

Lemma ref_no_match pv x :
  ref_label_start x = false -> match_here RE_REF pv x = None.
Proof.
  intros H. apply orb_false_iff in H as [HR HT].
  assert (R1 : ci_starts_with (txt "Reference") x = false).
  { destruct (ci_starts_with (txt "Reference") x) eqn:E; [|reflexivity].
    apply (ci_starts_with_app_l (txt "Ref") (txt "erence")) in E.
    congruence. }
  unfold match_here.
  cbn [p_re p_flags RE_REF seqs alts lits run]. unfold lits.
  rewrite !(run_word_fail (txt "Reference")) by assumption.
  rewrite !(run_word_fail (txt "Ref")) by assumption.
  destruct (ci_starts_with (txt "Tender") x) eqn:T.
  2:{ rewrite !run_word_fail by assumption. reflexivity. }
  destruct (ci_starts_with_split _ _ T) as (x1 & E & L & C).
  unfold tender_label_start in HT. rewrite T in HT.
  change (length (txt "Tender")) with 6 in *.
  set (z := skipn 6 x) in *. rewrite E.
  rewrite !run_word_ok by assumption.
  cbn [prev rest grp].
  destruct z as [|c z'].
  { reflexivity. }
  destruct (isspace c) eqn:S.
  2:{ rewrite !rep_greedy_stop by (simpl; now rewrite S). reflexivity. }
  cbn [no_space_at_head] in HT. rewrite S in HT. cbn [negb andb] in HT.
  apply orb_false_iff in HT as [HN HI].
  rewrite !spaces_then_word_none by (reflexivity || assumption).
  reflexivity.
Qed.

Lemma ref_match pv x y :
  x <> [] -> forallb ref_alphabet x = true -> hd "A"%char x <> "-"%char ->
  head_fails is_ref_char y = true ->
  match_here RE_REF pv (txt "Reference: " ++ x ++ y) = Some (Some x).
Proof.
  intros N A D Y. unfold match_here.
  cbn [p_re p_flags RE_REF seqs alts lits run]. unfold lits.
  change (txt "Reference: " ++ x ++ y)
    with (txt "Reference" ++ txt ": " ++ x ++ y).
  rewrite run_word_ok by reflexivity.
  cbn [run separator prev rest grp].
  assert (SEP : head_fails (atom_match IM sep_chars) (x ++ y) = true).
  { destruct x as [|c x]; [congruence|]. cbn [app head_fails forallb hd] in *.
    apply andb_true_iff in A as [A _].
    rewrite sep_chars_match. apply negb_true_iff.
    now apply ref_alphabet_facts. }
  assert (ALL : forallb (atom_match IM ref_chars) x = true).
  { apply forallb_impl with (p := ref_alphabet); [|assumption].
    intros c H. rewrite ref_chars_match. now apply ref_alphabet_facts. }
  assert (END : head_fails (atom_match IM ref_chars) y = true).
  { destruct y as [|c y]; [reflexivity|]. cbn [head_fails] in *.
    now rewrite ref_chars_match. }
  rewrite rep_greedy_upto; try assumption; try reflexivity; try (simpl; lia).
  - rewrite rep_greedy_all; try assumption.
    + now rewrite firstn_consumed.
    + destruct x; [congruence | simpl; lia].
    + discriminate.
  - rewrite rep_greedy_all; try assumption.
    + discriminate.
    + destruct x; [congruence | simpl; lia].
    + discriminate.
Qed.

Lemma captured_reference pre a x b post :
  x <> [] -> forallb ref_alphabet x = true -> hd "A"%char x <> "-"%char ->
  head_fails is_ref_char b = true ->
  any_start ref_label_start (view_before pre a)
    (txt "Reference: " ++ x ++ view_after b post) = false ->
  captured RE_REF
    (full_view (pre ++ (a ++ txt "Reference: " ++ x ++ b) :: post))
  = Some x.
Proof.
  intros N A D B F.
  destruct (@forallb_no_space_ends ref_alphabet x) as [XH XE];
    [apply ref_alphabet_facts | assumption |].
  rewrite (app_assoc (txt "Reference: ") x b).
  rewrite view_split;
    [| discriminate | reflexivity | now apply no_space_at_end_app].
  rewrite <- (app_assoc (txt "Reference: ") x).
  unfold captured, search.
  rewrite search_from_skip.
  - erewrite search_from_here.
    2:{ apply ref_match; try assumption.
        now apply view_after_head. }
    simpl. f_equal. unfold strip. rewrite rstrip_fixed by assumption.
    now apply lstrip_fixed.
  - intros u1 u2 E N2. apply ref_no_match.
    now apply any_start_false with (u := view_before pre a) (u1 := u1).
Qed.

(** ** The title pattern *)

Lemma title_no_match_inside pv x :
  line_start pv = false -> match_here RE_TITLE pv x = None.
Proof.
  intros H. unfold match_here.
  cbn [p_re p_flags RE_TITLE seqs run at_bol prev].
  destruct pv as [c|]; [|discriminate]. simpl in H.
  unfold at_bol. cbn [prev]. change (multiline IM) with true.
  cbn [andb]. now rewrite H.
Qed.

Lemma title_no_match_label pv x :
  no_space_at_head x = true -> title_label_start x = false ->
  match_here RE_TITLE pv x = None.
Proof.
  intros S H. apply orb_false_iff in H as [H HP].
  apply orb_false_iff in H as [HT HI].
  unfold match_here.
  cbn [p_re p_flags RE_TITLE seqs alts lits run prev rest grp].
  destruct (at_bol IM {| prev := pv; rest := x; grp := None |});
    [|reflexivity].
  rewrite rep_greedy_stop by (destruct x; [reflexivity | exact S]).
  cbn [Nat.eqb]. unfold lits.
  rewrite !run_word_fail by assumption. reflexivity.
Qed.

Lemma title_match pv w x tail :
  line_start pv = true ->
  forallb isspace w = true -> no_lf w = true ->
  x <> [] -> no_lf x = true -> head_fails is_sep_char x = true ->
  head_fails (atom_match IM Dot) tail = true ->
  match_here RE_TITLE pv (txt "Tender Title: " ++ w ++ x ++ tail)
  = Some (Some (skipn 3 w ++ x)).
Proof.
  intros B W WL N XL XS T. unfold match_here.
  cbn [p_re p_flags RE_TITLE seqs alts lits run prev rest grp].
  assert (AB : at_bol IM {| prev := pv;
                            rest := txt "Tender Title: " ++ w ++ x ++ tail;
                            grp := None |} = true).
  { destruct pv as [c|]; [|reflexivity]. exact B. }
  rewrite AB.
  rewrite rep_greedy_stop by reflexivity. cbn [Nat.eqb]. unfold lits.
  change (txt "Tender Title: " ++ w ++ x ++ tail)
    with (txt "Tender" ++ txt " " ++ txt "Title" ++ (txt ": " ++ w) ++ x ++ tail).
  rewrite run_word_ok by reflexivity.
  cbn [run prev rest grp].
  assert (SEPW : forallb (atom_match IM sep_chars) (txt ": " ++ w) = true).
  { change (txt ": " ++ w) with (":"%char :: " "%char :: w).
    cbn [forallb]. rewrite !sep_chars_match.
    change (is_sep_char ":") with true. change (is_sep_char " ") with true.
    cbn [andb]. apply forallb_impl with (2 := W).
    intros c H. rewrite sep_chars_match. now apply space_is_sep. }
  assert (SEPX : head_fails (atom_match IM sep_chars) (x ++ tail) = true).
  { destruct x as [|c x]; [congruence|]. cbn [app head_fails] in *.
    now rewrite sep_chars_match. }
  assert (DOT : forallb (atom_match IM Dot) (skipn 3 w ++ x) = true).
  { rewrite forallb_app. apply andb_true_iff. split; [|exact XL].
    rewrite <- (firstn_skipn 3 w) in WL. unfold no_lf in WL.
    rewrite forallb_app in WL. now apply andb_true_iff in WL as [_ WL]. }
  assert (LEN : 1 <= length (skipn 3 w ++ x)).
  { rewrite length_app. destruct x; [congruence | simpl; lia]. }
  assert (BODY : forall pv',
    rep_greedy (atom_match IM sep_chars) 0 (Some 5) pv'
      ((txt ": " ++ w) ++ x ++ tail)
      (fun pv0 x0 =>
         run IM (Group (Rep Dot 1 None))
           {| prev := pv0; rest := x0; grp := None |}
           (fun st' => run IM Eol st' (fun st'0 => Some (grp st'0))))
    = Some (Some (skipn 3 w ++ x))).
  { intros pv'.
    assert (G : forall pv0,
      run IM (Group (Rep Dot 1 None))
        {| prev := pv0; rest := (skipn 3 w ++ x) ++ tail; grp := None |}
        (fun st' => run IM Eol st' (fun st'0 => Some (grp st'0)))
      = Some (Some (skipn 3 w ++ x))).
    { intros pv0. cbn [run prev rest grp].
      assert (EOL : at_eol IM {| prev := advance pv0 (skipn 3 w ++ x);
                 rest := tail;
                 grp := Some (firstn (length ((skipn 3 w ++ x) ++ tail)
                                      - length tail)
                                     ((skipn 3 w ++ x) ++ tail)) |} = true).
      { unfold at_eol. cbn [rest]. destruct tail as [|c t]; [reflexivity|].
        cbn [head_fails atom_match] in T. apply negb_true_iff in T.
        apply negb_false_iff in T. rewrite T. reflexivity. }
      rewrite rep_greedy_all; try assumption.
      - rewrite EOL. cbn [grp]. now rewrite firstn_consumed.
      - rewrite EOL. discriminate. }
    rewrite rep_greedy_bounded; try assumption.
    - change (skipn 5 (txt ": " ++ w)) with (skipn 3 w).
      rewrite app_assoc. apply G.
    - change (skipn 5 (txt ": " ++ w)) with (skipn 3 w).
      rewrite app_assoc, G. discriminate. }
  rewrite rep_greedy_all with (w := txt " ");
    try reflexivity; try (simpl; lia).
  - rewrite run_word_ok by reflexivity. cbn [run prev rest grp separator].
    now rewrite BODY.
  - rewrite run_word_ok by reflexivity. cbn [run prev rest grp separator].
    rewrite BODY. discriminate.
Qed.

Lemma title_label_start_cut a z :
  title_label_start a = false -> title_label_start (a ++ LF :: z) = false.
Proof.
  unfold title_label_start. intros H.
  apply orb_false_iff in H as [H HP]. apply orb_false_iff in H as [HT HI].
  repeat (apply orb_false_iff; split);
    match goal with |- ci_starts_with ?w _ = false =>
      destruct (ci_starts_with w (a ++ LF :: z)) eqn:E; [|reflexivity];
      apply (ci_starts_with_cut w a LF z eq_refl) in E; congruence
    end.
Qed.

Lemma title_skip_line pv a z :
  line_start pv = true -> good_line a = true ->
  search_from RE_TITLE pv ((a ++ [LF]) ++ z) = search_from RE_TITLE (Some LF) z.
Proof.
  intros B G. unfold good_line in G.
  apply andb_true_iff in G as [G GL]. apply andb_true_iff in G as [G GF].
  apply andb_true_iff in G as [GE GH].
  apply negb_true_iff in GL.
  rewrite search_from_skip; [now rewrite advance_snoc|].
  intros u1 u2 E N.
  destruct (exists_last N) as (u2' & e & ->).
  rewrite app_assoc in E. apply app_inj_tail in E as [E <-].
  destruct u1 as [|c u1].
  - simpl in E. subst u2'. simpl advance. rewrite <- app_assoc.
    apply title_no_match_label.
    + destruct a; [discriminate GE | exact GH].
    + now apply title_label_start_cut.
  - apply title_no_match_inside.
    assert (N1 : c :: u1 <> []) by discriminate.
    destruct (advance_in pv N1) as (d & -> & I). simpl.
    unfold no_lf in GF. rewrite forallb_forall in GF.
    apply negb_true_iff. apply GF. rewrite E.
    apply in_or_app. now left.
Qed.

Lemma title_skip_block ps : forall pv z,
  line_start pv = true -> forallb good_line ps = true ->
  exists pv', line_start pv' = true
              /\ search_from RE_TITLE pv (lines_block ps ++ z)
                 = search_from RE_TITLE pv' z.
Proof.
  induction ps as [|a ps IH]; intros pv z B G.
  - exists pv. auto.
  - simpl in G. apply andb_true_iff in G as [G1 G2].
    destruct (IH (Some LF) z eq_refl G2) as (pv' & B' & E).
    exists pv'. split; [assumption|].
    unfold lines_block in *. simpl. rewrite <- app_assoc.
    now rewrite title_skip_line.
Qed.

Lemma good_lines pre :
  Forall (fun l => no_break l = true) pre ->
  forallb no_title_label pre = true ->
  forallb good_line (map strip (filter nonblank pre)) = true.
Proof.
  induction 1 as [|l pre NB _ IH]; [reflexivity|].
  simpl. intros H. apply andb_true_iff in H as [H1 H2].
  destruct (nonblank l) eqn:E; [|auto].
  simpl. rewrite (IH H2), andb_true_r.
  destruct (strip_spec l) as (u & v & _ & _ & _ & SH & _).
  unfold good_line. unfold nonblank in E. rewrite E, SH.
  rewrite (no_lf_strip _ (no_break_no_lf _ NB)). exact H1.
Qed.

Lemma title_of_labelled pre indent X post :
  Forall (fun l => no_break l = true)
         (pre ++ (indent ++ txt "Tender Title: " ++ X) :: post) ->
  forallb no_title_label pre = true ->
  forallb isspace indent = true ->
  plain_start (strip X) = true ->
  title_of (pre ++ (indent ++ txt "Tender Title: " ++ X) :: post)
  = Some (strip X).
Proof.
  intros NB P I PS.
  apply Forall_app in NB as [NBpre NBl]. inversion NBl as [|? ? NBX _]; subst.
  apply no_break_no_lf in NBX.
  destruct (strip_spec X) as (w & v & EX & W & V & SH & SE).
  set (x := strip X) in *.
  assert (N : x <> []) by (destruct x; [discriminate PS | discriminate]).
  assert (S : strip (indent ++ txt "Tender Title: " ++ X)
              = txt "Tender Title: " ++ w ++ x).
  { rewrite EX.
    replace (indent ++ txt "Tender Title: " ++ w ++ x ++ v)
      with (indent ++ (txt "Tender Title: " ++ w ++ x) ++ v)
      by (now rewrite <- !app_assoc).
    apply strip_framed; try reflexivity; try assumption.
    - discriminate.
    - rewrite app_assoc. now apply no_space_at_end_app. }
  rewrite EX in NBX. unfold no_lf in NBX. rewrite forallb_app in NBX.
  apply andb_true_iff in NBX as [_ NBX].
  assert (NBX' : no_lf (w ++ x ++ v) = true) by exact NBX.
  clear NBX. rename NBX' into NBX.
  unfold no_lf in NBX. rewrite !forallb_app in NBX.
  apply andb_true_iff in NBX as [WL NBX].
  apply andb_true_iff in NBX as [XL _].
  assert (C : captured RE_TITLE
                (full_view (pre ++ (indent ++ txt "Tender Title: " ++ X) :: post))
              = Some x).
  { rewrite full_view_split by (rewrite S; discriminate).
    rewrite S. unfold captured, search.
    destruct (@title_skip_block (map strip (filter nonblank pre)) None
                ((txt "Tender Title: " ++ w ++ x)
                 ++ after_line (map strip (filter nonblank post)))
                eq_refl (good_lines NBpre P)) as (pv' & B' & ->).
    rewrite <- !app_assoc.
    erewrite search_from_here.
    2:{ apply title_match; try assumption.
        - destruct x as [|c x]; [congruence|]. simpl in *.
          unfold is_sep_char. apply andb_true_iff in PS as [P1 P2].
          apply negb_true_iff in P1, P2. rewrite P1, P2.
          simpl. exact SH.
        - destruct (after_line_head (map strip (filter nonblank post)))
            as [-> | (t & ->)]; reflexivity. }
    cbn [option_map]. f_equal.
    replace (skipn 3 w ++ x) with (skipn 3 w ++ x ++ [])
      by (now rewrite app_nil_r).
    apply strip_framed; try assumption; try reflexivity.
    rewrite <- (firstn_skipn 3 w), forallb_app in W.
    now apply andb_true_iff in W as [_ W]. }
  unfold title_of. rewrite C.
  destruct x; [congruence | reflexivity].
Qed.

(** ** What the patterns capture *)

Section Consumed.

Variable f : flags.
Variable R : Type.

Lemma rep_greedy_consumed p x : forall lo hi pv (k : option ascii -> str -> option R),
  rep_greedy p lo hi pv x k = None \/
  exists pv' w x', x = w ++ x' /\ forallb p w = true /\ lo <= length w
                   /\ rep_greedy p lo hi pv x k = k pv' x'.
Proof.
  induction x as [|c x IH]; intros lo hi pv k.
  - simpl. destruct lo; [|now left].
    right. exists pv, [], []. auto.
  - assert (STOP : (if Nat.eqb lo 0 then k pv (c :: x) else None) = None \/
                   exists pv' w x', c :: x = w ++ x' /\ forallb p w = true
                     /\ lo <= length w
                     /\ (if Nat.eqb lo 0 then k pv (c :: x) else None)
                        = k pv' x').
    { destruct lo; [|now left]. right. exists pv, [], (c :: x). auto. }
    simpl. destruct (p c) eqn:C; [|exact STOP].
    destruct (hi_allows hi); [|exact STOP]. simpl.
    destruct (IH (Nat.pred lo) (dec_hi hi) (Some c) k)
      as [E | (pv' & w & x' & E & W & L & G)].
    + rewrite E. exact STOP.
    + rewrite G. destruct (k pv' x') eqn:K; [|exact STOP].
      right. exists pv', (c :: w), x'. simpl. rewrite C, W, K, E.
      repeat split; auto. lia.
Qed.

(** The matcher only moves forward. *)
Lemma run_forward r : forall st (k : mstate -> option R),
  run f r st k = None \/
  exists st' w, rest st = w ++ rest st' /\ run f r st k = k st'.
Proof.
  induction r as [ | a | | | r1 IH1 r2 IH2 | r1 IH1 r2 IH2 | r1 IH1
                   | a lo hi | r1 IH1 ]; intros st k; simpl.
  - right; exists st, []; auto.
  - destruct (rest st) as [|c t]; [now left|].
    destruct (atom_match f a c); [|now left].
    right; exists {| prev := Some c; rest := t; grp := grp st |}, [c].
    split; reflexivity.
  - destruct (at_bol f st); [|now left]. right; exists st, []; auto.
  - destruct (at_eol f st); [|now left]. right; exists st, []; auto.
  - destruct (IH1 st (fun st' => run f r2 st' k)) as [E | (s1 & w1 & E1 & E)].
    + now left.
    + rewrite E.
      destruct (IH2 s1 k) as [E2 | (s2 & w2 & E2 & E')]; [now left|].
      right; exists s2, (w1 ++ w2); split; [|assumption].
      now rewrite E1, E2, app_assoc.
  - destruct (IH1 st k) as [E | (s1 & w1 & E1 & E)].
    + rewrite E. apply IH2.
    + rewrite E. destruct (k s1) eqn:K.
      * right; exists s1, w1; split; [assumption | now rewrite K].
      * apply IH2.
  - destruct (IH1 st k) as [E | (s1 & w1 & E1 & E)].
    + rewrite E. right; exists st, []; auto.
    + rewrite E. destruct (k s1) eqn:K.
      * right; exists s1, w1; split; [assumption | now rewrite K].
      * right; exists st, []; auto.
  - destruct (rep_greedy_consumed (atom_match f a) (rest st) lo hi (prev st)
                (fun pv x => k {| prev := pv; rest := x; grp := grp st |}))
      as [E | (pv' & w & x' & E & _ & _ & G)]; [now left|].
    right; exists {| prev := pv'; rest := x'; grp := grp st |}, w.
    split; [exact E | exact G].
  - match goal with |- run f r1 st ?K = _ \/ _ =>
      destruct (IH1 st K) as [E | (s1 & w1 & E1 & E)] end; [now left|].
    right.
    exists {| prev := prev s1; rest := rest s1;
              grp := Some (firstn (length (rest st) - length (rest s1))
                                  (rest st)) |}, w1.
    split; [exact E1 | exact E].
Qed.

End Consumed.

Lemma run_seqs_forward R rs : forall tail st (k : mstate -> option R),
  run IM (seqs (rs ++ tail)) st k = None \/
  exists st' w, rest st = w ++ rest st'
                /\ run IM (seqs (rs ++ tail)) st k = run IM (seqs tail) st' k.
Proof.
  induction rs as [|r rs IH]; intros tail st k.
  - right. exists st, []. auto.
  - simpl.
    destruct (run_forward IM r st (fun st' => run IM (seqs (rs ++ tail)) st' k))
      as [E | (s1 & w1 & E1 & E)]; [now left|].
    rewrite E.
    destruct (IH tail s1 k) as [E2 | (s2 & w2 & E2 & E')]; [now left|].
    right. exists s2, (w1 ++ w2). split; [|assumption].
    now rewrite E1, E2, app_assoc.
Qed.

Lemma rest_of_line_capture st :
  run IM (seqs [Group (Rep Dot 1 None); Eol]) st (fun s => Some (grp s)) = None
  \/ exists w v, rest st = w ++ v /\ w <> [] /\ no_lf w = true
                 /\ at_line_end v = true
                 /\ run IM (seqs [Group (Rep Dot 1 None); Eol]) st
                      (fun s => Some (grp s)) = Some (Some w).
Proof.
  cbn [seqs run prev rest grp].
  match goal with |- rep_greedy ?p ?lo ?hi ?pv ?x ?k = _ \/ _ =>
    destruct (rep_greedy_consumed p x lo hi pv k)
      as [E | (pv' & w & v & E & W & L & G)] end; [now left|].
  rewrite G. unfold at_eol. cbn [rest].
  assert (A : (match v with
               | [] => true
               | c :: t => Ascii.eqb c LF && (multiline IM || is_empty t)
               end) = at_line_end v).
  { destruct v; [reflexivity|]. simpl. now rewrite andb_true_r. }
  rewrite A. destruct (at_line_end v) eqn:V; [|now left].
  right. exists w, v. repeat split; try assumption.
  - destruct w; [simpl in L; lia | discriminate].
  - rewrite E. now rewrite firstn_consumed.
Qed.

Lemma ref_chars_capture st :
  run IM (seqs [Group (Rep ref_chars 1 None)]) st (fun s => Some (grp s)) = None
  \/ exists w, w <> [] /\ forallb is_ref_char w = true
               /\ run IM (seqs [Group (Rep ref_chars 1 None)]) st
                    (fun s => Some (grp s)) = Some (Some w).
Proof.
  cbn [seqs run prev rest grp].
  match goal with |- rep_greedy ?p ?lo ?hi ?pv ?x ?k = _ \/ _ =>
    destruct (rep_greedy_consumed p x lo hi pv k)
      as [E | (pv' & w & v & E & W & L & G)] end; [now left|].
  rewrite G. right. exists w. repeat split.
  - destruct w; [simpl in L; lia | discriminate].
  - apply forallb_impl with (2 := W). intros c H.
    now rewrite ref_chars_match in H.
  - rewrite E. now rewrite firstn_consumed.
Qed.

Lemma match_here_line p pv x :
  ends_with_line p ->
  match_here p pv x = None
  \/ exists g, match_here p pv x = Some g /\ line_capture x g.
Proof.
  intros (F & rs & E). unfold match_here. rewrite F, E.
  destruct (run_seqs_forward rs [Group (Rep Dot 1 None); Eol]
              {| prev := pv; rest := x; grp := None |}
              (fun st => Some (grp st)))
    as [N | (s1 & u & E1 & G)]; [now left|].
  rewrite G.
  destruct (rest_of_line_capture s1) as [N | (w & v & E2 & W & L & V & C)];
    [now left|].
  right. exists (Some w). split; [exact C|].
  exists u, w, v. cbn [rest] in E1. rewrite E1, E2. auto.
Qed.

Lemma search_line p x : forall pv,
  ends_with_line p ->
  search_from p pv x = None
  \/ exists g, search_from p pv x = Some g /\ line_capture x g.
Proof.
  induction x as [|c x IH]; intros pv P; simpl.
  - destruct (match_here_line pv [] P) as [N | (g & G & L)].
    + rewrite N. now left.
    + rewrite G. right. now exists g.
  - destruct (match_here_line pv (c :: x) P) as [N | (g & G & L)].
    + rewrite N.
      destruct (IH (Some c) P) as [N' | (g & G & u & w & v & E & T & L)];
        [now left|].
      right. exists g. split; [assumption|].
      exists (c :: u), w, v. rewrite T. auto.
    + rewrite G. right. now exists g.
Qed.

Lemma search_ref x : forall pv,
  search_from RE_REF pv x = None
  \/ exists g, search_from RE_REF pv x = Some g /\ ref_capture g.
Proof.
  assert (M : forall pv x, match_here RE_REF pv x = None
                           \/ exists g, match_here RE_REF pv x = Some g
                                        /\ ref_capture g).
  { intros pv y. unfold match_here.
    change (p_re RE_REF)
      with (seqs ([alts [ lits "Reference"; lits "Ref";
                          seqs [lits "Tender"; Rep Space 1 None; lits "No";
                                Opt (At (Lit "."%char))];
                          seqs [lits "Tender"; Rep Space 1 None; lits "ID"] ];
                   separator] ++ [Group (Rep ref_chars 1 None)])).
    change (p_flags RE_REF) with IM.
    match goal with |- run IM (seqs (?rs ++ ?tl)) ?st ?k = _ \/ _ =>
      destruct (run_seqs_forward rs tl st k) as [N | (s1 & u & E1 & G)] end;
      [now left|].
    rewrite G.
    destruct (ref_chars_capture s1) as [N | (w & W & A & C)]; [now left|].
    right. exists (Some w). split; [exact C|]. now exists w. }
  induction x as [|c x IH]; intros pv; cbn [search_from].
  - destruct (M pv []) as [N | (g & G & L)]; [rewrite N; now left|].
    rewrite G. right. now exists g.
  - destruct (M pv (c :: x)) as [N | (g & G & L)].
    + rewrite N. apply IH.
    + rewrite G. right. now exists g.
Qed.

Lemma join_after e ls : join [LF] (e :: ls) = e ++ after_line ls.
Proof. destruct ls; simpl; [now rewrite app_nil_r | reflexivity]. Qed.

Lemma no_space_at_end_last x c : no_space_at_end (x ++ [c]) = negb (isspace c).
Proof. unfold no_space_at_end. now rewrite rev_app_distr. Qed.

(** In the view, a character other than a newline that ends a line is
    not whitespace. *)
Lemma join_line_end ls : forall u c v,
  forallb view_line ls = true ->
  join [LF] ls = u ++ c :: v ->
  Ascii.eqb c LF = false -> at_line_end v = true ->
  isspace c = false.
Proof.
  induction ls as [|e ls IH]; intros u c v F J C V.
  - destruct u; discriminate J.
  - simpl in F. apply andb_true_iff in F as [Fe F].
    unfold view_line in Fe. apply andb_true_iff in Fe as [Fe EL].
    apply andb_true_iff in Fe as [_ EE].
    rewrite join_after in J.
    apply app_eq_app in J as [l [[E1 E2] | [E1 E2]]].
    + destruct l as [|d l].
      * destruct ls; simpl in E2; [discriminate E2|].
        injection E2 as -> _. discriminate C.
      * injection E2 as <- E2. destruct l as [|d l].
        -- rewrite E1, no_space_at_end_last in EE.
           now apply negb_true_iff in EE.
        -- rewrite E2 in V. simpl in V.
           rewrite E1 in EL. unfold no_lf in EL.
           rewrite forallb_app in EL. simpl in EL. rewrite V in EL.
           simpl in EL. rewrite !andb_false_r in EL. discriminate EL.
    + destruct ls as [|e' ls]; [destruct l; discriminate E2|].
      change (after_line (e' :: ls)) with (LF :: join [LF] (e' :: ls)) in E2.
      destruct l as [|d l].
      * simpl in E2. injection E2 as <- _. discriminate C.
      * simpl in E2. injection E2 as _ E2. exact (IH l c v F E2 C V).
Qed.

Lemma view_lines lines :
  Forall (fun l => no_break l = true) lines ->
  forallb view_line (map strip (filter nonblank lines)) = true.
Proof.
  induction 1 as [|l lines NB _ IH]; [reflexivity|].
  simpl. destruct (nonblank l) eqn:E; [|exact IH].
  simpl. rewrite IH, andb_true_r.
  destruct (strip_spec l) as (u & v & _ & _ & _ & _ & SE).
  unfold view_line. unfold nonblank in E. rewrite E, SE.
  now rewrite (no_lf_strip _ (no_break_no_lf _ NB)).
Qed.

Lemma strip_not_empty w c :
  isspace c = false -> strip (w ++ [c]) <> [].
Proof.
  intros C E. destruct (strip_spec (w ++ [c])) as (u & v & S & U & V & _).
  rewrite E in S. simpl in S.
  assert (A : forallb isspace (w ++ [c]) = true)
    by (rewrite S, forallb_app, U, V; reflexivity).
  rewrite forallb_app in A. simpl in A. rewrite C in A.
  rewrite andb_false_r in A. discriminate A.
Qed.

(** The patterns never capture a string that is empty once trimmed. *)
Lemma line_capture_strip lines g :
  Forall (fun l => no_break l = true) lines ->
  line_capture (full_view lines) g ->
  exists w, g = Some w /\ strip w <> [].
Proof.
  intros NB (u & w & v & G & T & W & L & V).
  exists w. split; [assumption|].
  destruct (exists_last W) as (w' & c & ->).
  apply strip_not_empty.
  unfold no_lf in L. rewrite forallb_app in L.
  apply andb_true_iff in L as [_ L]. simpl in L.
  rewrite andb_true_r in L. apply negb_true_iff in L.
  unfold full_view in T. fold nonblank in T.
  apply (join_line_end (map strip (filter nonblank lines)) (u ++ w') c v);
    try assumption.
  - now apply view_lines.
  - rewrite T. now rewrite <- !app_assoc.
Qed.

Lemma ref_char_not_space c : is_ref_char c = true -> isspace c = false.
Proof.
  destruct c as [[] [] [] [] [] [] [] []]; vm_compute; congruence.
Qed.

Lemma ref_capture_strip g :
  ref_capture g -> exists w, g = Some w /\ strip w <> [].
Proof.
  intros (w & G & W & A). exists w. split; [assumption|].
  destruct (forallb_no_space_ends is_ref_char w ref_char_not_space A)
    as [H E].
  unfold strip. rewrite rstrip_fixed, lstrip_fixed; assumption.
Qed.

Lemma ends_with_line_title : ends_with_line RE_TITLE.
Proof.
  split; [reflexivity|].
  exists [ Bol; Rep Space 0 None;
           alts [ Seq (lits "Tender")
                      (Opt (Seq (Rep Space 1 None) (lits "Title")));
                  lits "Title"; lits "Project" ];
           separator ].
  reflexivity.
Qed.

Lemma ends_with_line_org : ends_with_line RE_ORG.
Proof.
  split; [reflexivity|].
  exists [ Bol;
           alts [ seqs [lits "Issued"; Rep Space 1 None; lits "By"];
                  seqs [lits "Issuing"; Rep Space 1 None; lits "Organization"];
                  lits "Organization";
                  seqs [lits "Procurement"; Rep Space 1 None; lits "Entity"];
                  seqs [lits "Issued"; Rep Space 1 None; lits "To"] ];
           separator ].
  reflexivity.
Qed.

Lemma ends_with_line_date : ends_with_line RE_DATE.
Proof.
  split; [reflexivity|].
  exists [ alts [ seqs [lits "Closing"; Rep Space 1 None; lits "Date"];
                  lits "Deadline";
                  seqs [lits "Bid"; Rep Space 1 None; lits "Submission";
                        Rep Space 1 None; lits "Deadline"];
                  seqs [lits "Submission"; Rep Space 1 None; lits "Deadline"] ];
           separator ].
  reflexivity.
Qed.

Lemma captured_line_not_empty p text :
  ends_with_line p ->
  captured p (full_view (splitlines text)) <> Some [].
Proof.
  intros P. unfold captured, search.
  destruct (search_line (full_view (splitlines text)) None P)
    as [N | (g & G & L)].
  - rewrite N. discriminate.
  - rewrite G.
    destruct (line_capture_strip (splitlines_no_break text) L) as (w & -> & S).
    simpl. congruence.
Qed.

Lemma captured_ref_not_empty full : captured RE_REF full <> Some [].
Proof.
  unfold captured, search.
  destruct (search_ref full None) as [N | (g & G & L)].
  - rewrite N. discriminate.
  - rewrite G. destruct (ref_capture_strip L) as (w & -> & S).
    simpl. congruence.
Qed.

(** The fallback is taken exactly when the title pattern matches
    nowhere. *)
Lemma title_of_cases text :
  title_of (splitlines text)
  = match captured RE_TITLE (full_view (splitlines text)) with
    | Some t => Some t
    | None => fallback_title (splitlines text)
    end.
Proof.
  unfold title_of.
  pose proof (@captured_line_not_empty RE_TITLE text ends_with_line_title) as N.
  destruct (captured RE_TITLE (full_view (splitlines text))) as [[|c t]|] eqn:E;
    [exfalso; apply N; reflexivity | reflexivity | reflexivity].
Qed.

(** The date handed to [normalize_date] is never the empty string. *)
Lemma captured_date_cases dp text :
  normalize_date dp (captured RE_DATE (full_view (splitlines text)))
  = match captured RE_DATE (full_view (splitlines text)) with
    | None => None
    | Some d =>
        match dp with
        | None => Some d
        | Some parse => match parse d with
                        | Ok dt => Some (isoformat dt)
                        | Raise _ => Some d
                        end
        end
    end.
Proof.
  pose proof (@captured_line_not_empty RE_DATE text ends_with_line_date) as N.
  destruct (captured RE_DATE (full_view (splitlines text))) as [[|c t]|] eqn:E;
    [exfalso; apply N; reflexivity | reflexivity | reflexivity].
Qed.

(** ** The parser never raises *)

Lemma parse_tender_text_eq dp text :
  parse_tender_text dp text =
  Ok [ ("title"%string, title_of (splitlines text));
       ("reference"%string, captured RE_REF (full_view (splitlines text)));
       ("organization"%string, captured RE_ORG (full_view (splitlines text)));
       ("closing_date"%string,
        normalize_date dp (captured RE_DATE (full_view (splitlines text)))) ].
Proof.
  unfold parse_tender_text, title_of.
  destruct (first_match_total RE_TITLE (full_view (splitlines text)) eq_refl)
    as (t & -> & ->).
  destruct (first_match_total RE_REF (full_view (splitlines text)) eq_refl)
    as (r & -> & ->).
  destruct (first_match_total RE_ORG (full_view (splitlines text)) eq_refl)
    as (o & -> & ->).
  destruct (first_match_total RE_DATE (full_view (splitlines text)) eq_refl)
    as (d & -> & ->).
  reflexivity.
Qed.

(** The record, with the two places where the code tests a string for
    emptiness resolved: a capture is never empty. *)
Lemma parse_tender_text_fields dp text :
  let full := full_view (splitlines text) in
  parse_tender_text dp text =
  Ok [ ("title"%string,
        match captured RE_TITLE full with
        | Some t => Some t
        | None => fallback_title (splitlines text)
        end);
       ("reference"%string, captured RE_REF full);
       ("organization"%string, captured RE_ORG full);
       ("closing_date"%string,
        match captured RE_DATE full with
        | None => None
        | Some d =>
            match dp with
            | None => Some d
            | Some parse => match parse d with
                            | Ok dt => Some (isoformat dt)
                            | Raise _ => Some d
                            end
            end
        end) ].
Proof.
  intros full. subst full.
  now rewrite parse_tender_text_eq, title_of_cases, captured_date_cases.
Qed.

Lemma fallback_title_not_empty lines : fallback_title lines <> Some [].
Proof.
  induction lines as [|l ls IH]; simpl; [discriminate|].
  destruct (strip l) as [|c t]; [exact IH|].
  destruct ((10 <? length (c :: t)) && isupper c); [discriminate | exact IH].
Qed.

Lemma isoformat_not_empty dt : isoformat dt <> [].
Proof.
  unfold isoformat. cbn [zpad]. rewrite <- !app_assoc.
  destruct (zpad 0 (year dt / 10 / 10 / 10 / 10)); discriminate.
Qed.

(** No field of the record is the empty string. *)
Lemma parse_tender_text_no_empty_field dp text :
  exists t r o c,
    parse_tender_text dp text
    = Ok [ ("title"%string, t); ("reference"%string, r);
           ("organization"%string, o); ("closing_date"%string, c) ]
    /\ t <> Some [] /\ r <> Some [] /\ o <> Some [] /\ c <> Some [].
Proof.
  do 4 eexists. split; [apply parse_tender_text_fields|].
  pose proof (@captured_line_not_empty RE_TITLE text ends_with_line_title) as T.
  pose proof (@captured_line_not_empty RE_ORG text ends_with_line_org) as O.
  pose proof (@captured_line_not_empty RE_DATE text ends_with_line_date) as D.
  repeat split.
  - destruct (captured RE_TITLE (full_view (splitlines text))) as [t|];
      [exact T | apply fallback_title_not_empty].
  - apply captured_ref_not_empty.
  - exact O.
  - destruct (captured RE_DATE (full_view (splitlines text))) as [d|];
      [|discriminate].
    destruct dp as [parse|]; [|exact D].
    destruct (parse d) as [dt|e]; [|exact D].
    intros E. injection E as E. now apply isoformat_not_empty in E.
Qed.

Lemma isoformat_date dt :
  year dt = 2025%N -> month dt = 9%N -> day dt = 30%N ->
  contains (txt "2025-09-30") (isoformat dt) = true.
Proof.
  intros Y M D. apply starts_with_contains.
  unfold isoformat. rewrite Y, M, D. reflexivity.
Qed.

(** ** Worked examples *)

(** The repository's test, run without the date library. *)
Example test_parse_basic_fields :
  values (parse_tender_text None test_sample)
  = [ Some "Construction of New Bridge"; Some "TB-2025-00123";
      Some "City Public Works Department"; Some "30 September 2025" ]%string.
Proof. vm_compute. reflexivity. Qed.

(** With a date library the closing date is the ISO rendering. *)
Example test_parse_basic_fields_iso :
  values (parse_tender_text fixed_parser test_sample)
  = [ Some "Construction of New Bridge"; Some "TB-2025-00123";
      Some "City Public Works Department"; Some "2025-09-30T00:00:00" ]%string.
Proof. vm_compute. reflexivity. Qed.

(** The separator may run over a line break: a label alone on its line
    takes the next line as its value. *)
Example label_alone_on_its_line :
  values (parse_tender_text None (txt "Title" ++ [LF] ++ txt "Harbour works"))
  = [ Some "Harbour works"; None; None; None ]%string.
Proof. vm_compute. reflexivity. Qed.

(** When nothing acceptable follows Reference, the shorter label Ref
    matches and the capture is the rest of the word. *)
Example reference_backtracks_to_ref :
  values (parse_tender_text None (txt "Reference: $100"))
  = [ Some "Reference: $100"; Some "erence"; None; None ]%string.
Proof. vm_compute. reflexivity. Qed.

(** The reference capture runs on over lower-case letters. *)
Example reference_takes_lower_case :
  values (parse_tender_text None (txt "ref AB12cd-x rest"))
  = [ None; Some "AB12cd-x"; None; None ]%string.
Proof. vm_compute. reflexivity. Qed.

(** An earlier label wins. *)
Example first_label_wins :
  values (parse_tender_text None
            (txt "Project: Alpha" ++ [LF] ++ txt "Tender Title: Beta"))
  = [ Some "Alpha"; None; None; None ]%string.
Proof. vm_compute. reflexivity. Qed.

(** ** The sample of the specification *)

(** C1: the four-line sample parses to the expected title, reference and
    organization; the closing date is the raw text "30 September 2025"
    when the date library is missing or raises, and an ISO string that
    contains "2025-09-30" when the library reads that text as
    30 September 2025. *)
Theorem parse_sample (dp : dateparser_t) :
  exists d,
    parse_tender_text dp sample = Ok d
    /\ dict_get d "title" = Some (Some (txt "Construction of New Bridge"))
    /\ dict_get d "reference" = Some (Some (txt "TB-2025-00123"))
    /\ dict_get d "organization"
       = Some (Some (txt "City Public Works Department"))
    /\ match dp with
       | None =>
           dict_get d "closing_date" = Some (Some (txt "30 September 2025"))
       | Some parse =>
           match parse (txt "30 September 2025") with
           | Raise _ =>
               dict_get d "closing_date"
               = Some (Some (txt "30 September 2025"))
           | Ok dt =>
               dict_get d "closing_date" = Some (Some (isoformat dt))
               /\ (year dt = 2025%N -> month dt = 9%N -> day dt = 30%N ->
                   contains (txt "2025-09-30") (isoformat dt) = true)
           end
       end.
Proof.
  assert (T : title_of (splitlines sample)
              = Some (txt "Construction of New Bridge"))
    by (vm_compute; reflexivity).
  assert (C : captured RE_DATE (full_view (splitlines sample))
              = Some (txt "30 September 2025"))
    by (vm_compute; reflexivity).
  eexists. split; [apply parse_tender_text_eq|].
  rewrite T, C.
  split; [reflexivity|].
  split; [vm_compute; reflexivity|].
  split; [vm_compute; reflexivity|].
  destruct dp as [parse|]; [|reflexivity].
  cbn [dict_get String.eqb Ascii.eqb Bool.eqb fst snd].
  unfold normalize_date.
  change (is_empty (txt "30 September 2025")) with false.
  cbv iota.
  destruct (parse (txt "30 September 2025")) as [dt|e].
  - split; [reflexivity|]. apply isoformat_date.
  - reflexivity.
Qed.

Lemma parse_sample_witness :
  exists d,
    parse_tender_text fixed_parser sample = Ok d
    /\ dict_get d "closing_date" = Some (Some (txt "2025-09-30T00:00:00"))
    /\ contains (txt "2025-09-30") (txt "2025-09-30T00:00:00") = true.
Proof.
  destruct (parse_sample fixed_parser) as (d & P & _ & _ & _ & C & I).
  exists d. split; [exact P|]. split; [exact C|].
  exact (I eq_refl eq_refl eq_refl).
Defined.

(** ** The labelled title *)

(** C2, as the specification words it, fails: the separator of the
    pattern takes a dash that begins the value. *)
Lemma title_label_dash :
  ~ (forall (dp : dateparser_t) (text X : str),
       In (txt "Tender Title: " ++ X) (splitlines text) ->
       exists d, parse_tender_text dp text = Ok d
                 /\ dict_get d "title" = Some (Some (strip X))).
Proof.
  intros H.
  destruct (H None dash_title (txt "-A")) as (d & P & T).
  - left. reflexivity.
  - rewrite parse_tender_text_eq in P. injection P as <-.
    vm_compute in T. discriminate T.
Qed.

(** C2 (amended): when a line of the text is [Tender Title: X], possibly
    indented, no line before it begins, once trimmed and in any letter
    case, with Tender, Title or Project, and X trimmed is not empty and
    begins with neither a colon nor a dash, the title is X trimmed. *)
Theorem title_of_labelled_line (dp : dateparser_t) (text : str)
    (pre : list str) (indent X : str) (post : list str) :
  splitlines text = pre ++ (indent ++ txt "Tender Title: " ++ X) :: post ->
  forallb isspace indent = true ->
  forallb no_title_label pre = true ->
  plain_start (strip X) = true ->
  exists d, parse_tender_text dp text = Ok d
            /\ dict_get d "title" = Some (Some (strip X)).
Proof.
  intros L I P S. eexists. split; [apply parse_tender_text_eq|].
  cbn [dict_get String.eqb Ascii.eqb Bool.eqb]. do 2 f_equal.
  rewrite L. apply title_of_labelled; try assumption.
  pose proof (splitlines_no_break text) as NB. rewrite L in NB. exact NB.
Qed.

Lemma title_of_labelled_line_witness :
  (exists d, parse_tender_text None notice = Ok d
             /\ dict_get d "title" = Some (Some (txt "Bridge Works")))
  /\ (exists d, parse_tender_text None sample = Ok d
                /\ dict_get d "title"
                   = Some (Some (txt "Construction of New Bridge"))).
Proof.
  split.
  - apply (@title_of_labelled_line None notice [txt "Notice 12 of 2025"]
             (txt "  ") (txt "  Bridge Works  ")
             [txt "see Reference: TB-2025/07, lot 2"]); reflexivity.
  - apply (@title_of_labelled_line None sample [] []
             (txt "Construction of New Bridge")
             [txt "Reference: TB-2025-00123";
              txt "Issuing Organization: City Public Works Department";
              txt "Closing Date: 30 September 2025"]); reflexivity.
Defined.

(** ** The labelled reference *)

(** C3, as the specification words it, fails: the separator of the
    pattern takes a dash that begins the reference. *)
Lemma reference_label_dash :
  ~ (forall (dp : dateparser_t) (text before X after : str),
       text = before ++ txt "Reference: " ++ X ++ after ->
       X <> [] -> forallb ref_alphabet X = true ->
       exists d, parse_tender_text dp text = Ok d
                 /\ dict_get d "reference" = Some (Some X)).
Proof.
  intros H.
  destruct (H None dash_reference [] (txt "-A") []) as (d & P & T).
  - reflexivity.
  - discriminate.
  - reflexivity.
  - rewrite parse_tender_text_eq in P. injection P as <-.
    vm_compute in T. discriminate T.
Qed.

(** C3 (amended): when a line of the text contains [Reference: X] with X
    a non-empty string over [[A-Z0-9\-_/]] that does not begin with a dash
    and is not followed by a further letter, digit, dash, underscore or
    slash, and, in the text as the parser reads it (lines trimmed, blank
    lines dropped, joined by newlines), no earlier position begins a
    reference label (Ref, or Tender followed by whitespace and No or ID,
    in any letter case), the reference is X. *)
Theorem reference_of_labelled_text (dp : dateparser_t) (text : str)
    (pre : list str) (a X b : str) (post : list str) :
  splitlines text = pre ++ (a ++ txt "Reference: " ++ X ++ b) :: post ->
  forallb ref_alphabet X = true ->
  plain_start X = true ->
  head_fails is_ref_char b = true ->
  any_start ref_label_start (view_before pre a)
    (txt "Reference: " ++ X ++ view_after b post) = false ->
  exists d, parse_tender_text dp text = Ok d
            /\ dict_get d "reference" = Some (Some X).
Proof.
  intros L A S B F. eexists. split; [apply parse_tender_text_eq|].
  cbn [dict_get String.eqb Ascii.eqb Bool.eqb]. do 2 f_equal.
  rewrite L. apply captured_reference; try assumption.
  - destruct X; [discriminate S | discriminate].
  - destruct X as [|c X]; [discriminate S|]. simpl in *.
    apply andb_true_iff in S as [_ S]. apply negb_true_iff in S.
    intros ->. discriminate S.
Qed.

Lemma reference_of_labelled_text_witness :
  (exists d, parse_tender_text None notice = Ok d
             /\ dict_get d "reference" = Some (Some (txt "TB-2025/07")))
  /\ (exists d, parse_tender_text None sample = Ok d
                /\ dict_get d "reference" = Some (Some (txt "TB-2025-00123"))).
Proof.
  split.
  - apply (@reference_of_labelled_text None notice
             [txt "Notice 12 of 2025"; txt "  Tender Title:   Bridge Works  "]
             (txt "see ") (txt "TB-2025/07") (txt ", lot 2") []); reflexivity.
  - apply (@reference_of_labelled_text None sample
             [txt "Tender Title: Construction of New Bridge"]
             [] (txt "TB-2025-00123") []
             [txt "Issuing Organization: City Public Works Department";
              txt "Closing Date: 30 September 2025"]); reflexivity.
Defined.

(** ** The title fallback *)

Lemma fallback_title_find lines :
  fallback_title lines = option_map strip (find eligible lines).
Proof.
  induction lines as [|l ls IH]; [reflexivity|].
  simpl. unfold eligible at 1. destruct (strip l) as [|c t] eqn:E.
  - exact IH.
  - cbn [is_empty negb andb]. destruct ((10 <? length (c :: t)) && isupper c).
    + simpl. now rewrite E.
    + exact IH.
Qed.

(** C5: when the title pattern matches nowhere, the title is the first
    line, in the original order, whose trimmed form is not empty, is longer
    than 10 characters and begins with an upper-case character, trimmed;
    it is null when there is no such line. *)
Theorem title_fallback (dp : dateparser_t) (text : str) :
  search RE_TITLE (full_view (splitlines text)) = None ->
  exists d, parse_tender_text dp text = Ok d
            /\ dict_get d "title"
               = Some (option_map strip (find eligible (splitlines text))).
Proof.
  intros H. eexists. split; [apply parse_tender_text_eq|].
  cbn [dict_get String.eqb Ascii.eqb Bool.eqb]. f_equal.
  unfold title_of, captured. rewrite H. simpl.
  apply fallback_title_find.
Qed.

Lemma title_fallback_witness :
  (exists d, parse_tender_text None untitled = Ok d
             /\ dict_get d "title"
                = Some (Some (txt "Supply of Office Furniture")))
  /\ (exists d, parse_tender_text None no_heading = Ok d
                /\ dict_get d "title" = Some None).
Proof.
  split.
  - apply (@title_fallback None untitled). vm_compute. reflexivity.
  - apply (@title_fallback None no_heading). vm_compute. reflexivity.
Defined.

(** ** Date normalization *)

(** C6, as the specification words it, fails on the empty string: with the
    date library missing the raw string is not handed back. *)
Lemma normalize_date_empty_string :
  normalize_date None (Some (txt "")) = None
  /\ normalize_date None (Some (txt "")) <> Some (txt "").
Proof. split; [reflexivity | discriminate]. Qed.

(** C6 (amended): [normalize_date] is total; it returns null for null and
    for the empty string; for a non-empty string it returns that string
    unchanged when the date library is missing or its parse raises, and
    the ISO rendering of the parsed timestamp otherwise. *)
Theorem normalize_date_cases (dp : dateparser_t) (date_str : option str) :
  match date_str with
  | None => normalize_date dp date_str = None
  | Some [] => normalize_date dp date_str = None
  | Some (c :: d) =>
      match dp with
      | None => normalize_date dp date_str = Some (c :: d)
      | Some parse =>
          match parse (c :: d) with
          | Raise _ => normalize_date dp date_str = Some (c :: d)
          | Ok dt => normalize_date dp date_str = Some (isoformat dt)
          end
      end
  end.
Proof.
  destruct date_str as [[|c d]|]; try reflexivity.
  destruct dp as [parse|]; [|reflexivity].
  simpl. destruct (parse (c :: d)); reflexivity.
Qed.

(** ** Shape and determinism of the parsed record *)

(** C9: on every text the parser returns normally, and the record has
    the four keys title, reference, organization, closing_date in that
    order, each bound to an optional string. *)
Theorem parse_tender_text_shape (dp : dateparser_t) (text : str) :
  exists d : dict (option str),
    parse_tender_text dp text = Ok d
    /\ keys d = [ "title"; "reference"; "organization"; "closing_date" ]%string.
Proof.
  eexists. split; [apply parse_tender_text_eq | reflexivity].
Qed.

(** C8, as the specification words it, fails: the date library is
    called without a default date and fills what the text leaves out from
    the day of the call, so the same text parsed in two different years
    gives two different closing dates. *)
Lemma parse_tender_text_depends_on_day :
  parse_tender_text (library_in_year 2025) partial_date_notice
  <> parse_tender_text (library_in_year 2026) partial_date_notice.
Proof.
  rewrite !parse_tender_text_eq. vm_compute. intros H. discriminate H.
Qed.

(** C8 (amended): two applications to the same text return records with
    the same title, reference and organization, whatever the date library
    does in each; their closing dates are what the date library makes, in
    each application, of one and the same captured string, so the records
    are identical exactly when the library answers alike on that string
    (as it always does when it is missing). *)
Theorem parse_tender_text_deterministic (dp1 dp2 : dateparser_t) (text : str) :
  exists t r o date,
    parse_tender_text dp1 text
    = Ok [ ("title"%string, t); ("reference"%string, r);
           ("organization"%string, o);
           ("closing_date"%string, normalize_date dp1 date) ]
    /\ parse_tender_text dp2 text
       = Ok [ ("title"%string, t); ("reference"%string, r);
              ("organization"%string, o);
              ("closing_date"%string, normalize_date dp2 date) ]
    /\ (parse_tender_text dp1 text = parse_tender_text dp2 text
        <-> normalize_date dp1 date = normalize_date dp2 date)
    /\ normalize_date None date = date.
Proof.
  exists (title_of (splitlines text)),
         (captured RE_REF (full_view (splitlines text))),
         (captured RE_ORG (full_view (splitlines text))),
         (captured RE_DATE (full_view (splitlines text))).
  rewrite !parse_tender_text_eq.
  split; [reflexivity|]. split; [reflexivity|]. split.
  - split; intros H; [injection H as H; exact H | now rewrite H].
  - pose proof (@captured_line_not_empty RE_DATE text ends_with_line_date) as N.
    destruct (captured RE_DATE (full_view (splitlines text))) as [[|c d]|];
      [exfalso; apply N; reflexivity | reflexivity | reflexivity].
Qed.

(** ** The text extractor *)

Lemma join_empty_pages n :
  join [LF] (repeat ([] : str) n) = repeat LF (n - 1).
Proof.
  induction n as [|n IH]; [reflexivity|].
  destruct n as [|n]; [reflexivity|].
  change (join [LF] (repeat [] (S (S n))))
    with ([LF] ++ join [LF] (repeat ([] : str) (S n))).
  rewrite IH. simpl. now rewrite Nat.sub_0_r.
Qed.

Lemma pages_text_cons env force_ocr dpi page (pages : list Page) :
  pages_text env force_ocr dpi (loaded (page :: pages))
  = (t <- page_text env force_ocr dpi page ;;
     ts <- pages_text env force_ocr dpi (loaded pages) ;;
     Ok (t :: ts)).
Proof. reflexivity. Qed.

Lemma pages_text_no_ocr env dpi (pages : list Page) :
  pytesseract env = None \/ Image env = None ->
  pages_text env true dpi (loaded pages) = Ok (repeat [] (length pages)).
Proof.
  intros H. induction pages as [|page pages IH]; [reflexivity|].
  rewrite pages_text_cons, IH.
  assert (P : page_text env true dpi page = Ok []).
  { unfold page_text. simpl.
    destruct H as [H|H]; rewrite H; [reflexivity|].
    destruct (pytesseract env); reflexivity. }
  rewrite P. reflexivity.
Qed.

(** C10, as it is worded, fails: a document can open although its pages
    do not load (an encrypted one), and [load_page] stands outside every
    handler, so the extraction of such a one-page document raises where
    the claim has the empty string. *)
Lemma extract_forced_ocr_page_not_loaded :
  ~ (forall env path dpi open (doc : Document),
       fitz env = Some open -> open path = Ok doc ->
       pytesseract env = None \/ Image env = None ->
       extract_text_from_pdf env path true dpi
       = Ok (repeat LF (length doc - 1))).
Proof.
  intros H.
  pose proof (H locked_env (txt "t.pdf") 200 (fun _ => Ok locked_document)
                locked_document eq_refl eq_refl (or_introl eq_refl)) as E.
  vm_compute in E. discriminate E.
Qed.

(** C10 (amended): with OCR forced and the OCR engine or the imaging
    library missing, an opened document of n pages, each of which loads,
    yields n-1 newline characters (the empty string for n <= 1). *)
Theorem extract_forced_ocr_unavailable env path dpi open (pages : list Page) :
  fitz env = Some open ->
  open path = Ok (loaded pages) ->
  pytesseract env = None \/ Image env = None ->
  extract_text_from_pdf env path true dpi
  = Ok (repeat LF (length pages - 1)).
Proof.
  intros F O H. unfold extract_text_from_pdf. rewrite F. simpl. rewrite O.
  simpl. rewrite (pages_text_no_ocr env dpi pages H). simpl.
  now rewrite join_empty_pages.
Qed.

Lemma extract_forced_ocr_unavailable_witness :
  extract_text_from_pdf (no_ocr_env three_pages) (txt "t.pdf") true 200
  = Ok [LF; LF].
Proof.
  apply (@extract_forced_ocr_unavailable (no_ocr_env three_pages)
           (txt "t.pdf") 200 (fun _ => Ok (loaded three_pages)) three_pages).
  - reflexivity.
  - reflexivity.
  - left; reflexivity.
Defined.

(** C4 does not hold of the code: the OCR branch has no handler, so an
    error of the OCR engine on one scanned page aborts the extraction of
    the whole document, also losing the text of the pages read before. *)
Theorem extract_ocr_error_aborts :
  extract_text_from_pdf
    (broken_ocr_env [text_page (txt "Tender Title: Bridge"); scanned_page])
    (txt "t.pdf") false 200
  = Raise (OtherError (txt "tesseract is not installed")).
Proof. reflexivity. Qed.

(** The sibling path: an error of the embedded-text retrieval is absorbed
    and the page falls through to OCR. *)
Lemma page_text_get_text_error env dpi e pix :
  page_text env false dpi {| get_text := Raise e; get_pixmap := pix |}
  = page_text env true dpi {| get_text := Raise e; get_pixmap := pix |}.
Proof. reflexivity. Qed.

(** ** The command line *)

Section CLIFacts.

Variable json_dumps : AnalysisResult -> str.
Variable print_stdout : list str -> str -> option exn.

Lemma analyze_file_eq env path force_ocr dpi :
  analyze_file env path force_ocr dpi =
  match extract_text_from_pdf env path force_ocr dpi with
  | Raise e => Raise e
  | Ok text =>
      match parse_tender_text (dateparser env) text with
      | Raise e => Raise e
      | Ok parsed => Ok {| ar_path := path; ar_parsed := parsed;
                           ar_text_snippet := firstn 200 text |}
      end
  end.
Proof.
  unfold analyze_file.
  destruct (extract_text_from_pdf env path force_ocr dpi); simpl; [|reflexivity].
  destruct (parse_tender_text (dateparser env) a); reflexivity.
Qed.


(** The outcome of a run whose analysis returned. *)
Lemma main_ok env args result :
  analyze_file env (arg_path args) (arg_ocr args) (arg_dpi args) = Ok result ->
  main json_dumps print_stdout env args
  = {| stdout := fst (print_lines print_stdout [] (report json_dumps args result));
       stderr := match snd (print_lines print_stdout []
                              (report json_dumps args result)) with
                 | None => []
                 | Some e => [txt "Error: " ++ exn_message e]
                 end;
       exit_status := match snd (print_lines print_stdout []
                                   (report json_dumps args result)) with
                      | None => 0
                      | Some _ => 1
                      end |}.
Proof.
  intros A. unfold main. rewrite A.
  destruct (print_lines print_stdout [] (report json_dumps args result))
    as [written [e|]]; reflexivity.
Qed.

(** C7: the run exits with status 0, the error stream empty, when the
    extraction, the parsing and every print succeed; an exception raised
    by the extraction or by the parsing is reported as one line
    "Error: ..." on the error stream, with exit status 1 and nothing on
    standard output.  The prints stand in the same [try] block: one that
    raises is reported the same way, with exit status 1. *)
Theorem main_exit_status env args :
  match extract_text_from_pdf env (arg_path args) (arg_ocr args)
                              (arg_dpi args) with
  | Raise e =>
      main json_dumps print_stdout env args
      = {| stdout := []; stderr := [txt "Error: " ++ exn_message e];
           exit_status := 1 |}
  | Ok text =>
      match parse_tender_text (dateparser env) text with
      | Raise e =>
          main json_dumps print_stdout env args
          = {| stdout := []; stderr := [txt "Error: " ++ exn_message e];
               exit_status := 1 |}
      | Ok parsed =>
          match snd (print_lines print_stdout []
                       (report json_dumps args
                          {| ar_path := arg_path args; ar_parsed := parsed;
                             ar_text_snippet := firstn 200 text |})) with
          | None =>
              exit_status (main json_dumps print_stdout env args) = 0
              /\ stderr (main json_dumps print_stdout env args) = []
          | Some e =>
              exit_status (main json_dumps print_stdout env args) = 1
              /\ stderr (main json_dumps print_stdout env args)
                 = [txt "Error: " ++ exn_message e]
          end
      end
  end.
Proof.
  pose proof (analyze_file_eq env (arg_path args) (arg_ocr args)
                (arg_dpi args)) as A.
  destruct (extract_text_from_pdf env (arg_path args) (arg_ocr args)
              (arg_dpi args)) as [text|e].
  - destruct (parse_tender_text (dateparser env) text) as [parsed|e].
    + rewrite (main_ok _ _ A). cbn [exit_status stderr].
      destruct (snd (print_lines print_stdout []
                       (report json_dumps args
                          {| ar_path := arg_path args; ar_parsed := parsed;
                             ar_text_snippet := firstn 200 text |})));
        split; reflexivity.
    + unfold main. now rewrite A.
  - unfold main. now rewrite A.
Qed.

End CLIFacts.

(** * Further properties *)

(** ** The text extractor, page by page *)

Lemma page_text_embedded env dpi page :
  has_text page = true \/ pytesseract env = None \/ Image env = None ->
  page_text env false dpi page = Ok (embedded_text page).
Proof.
  unfold page_text, embedded_text, has_text. cbn [negb try_except].
  destruct (get_text page) as [t|e]; cbn [bind try_except].
  - destruct (is_empty (strip t)) eqn:S.
    + rewrite andb_false_r. cbn [negb andb].
      intros [H | [H | H]]; [discriminate H | now rewrite H |].
      rewrite H. now destruct (pytesseract env).
    + intros _. destruct t as [|c t]; [discriminate S | reflexivity].
  - cbn [is_empty negb andb].
    intros [H | [H | H]]; [discriminate H | now rewrite H |].
    rewrite H. now destruct (pytesseract env).
Qed.

Lemma pages_text_embedded env dpi (doc : list Page) :
  (forallb has_text doc = true \/ pytesseract env = None \/ Image env = None) ->
  pages_text env false dpi (loaded doc) = Ok (map embedded_text doc).
Proof.
  intros H. induction doc as [|page doc IH]; [reflexivity|].
  rewrite pages_text_cons. cbn [map].
  rewrite page_text_embedded, IH; [reflexivity | |].
  - destruct H as [H | H]; [|now right].
    left. simpl in H. now apply andb_true_iff in H as [_ H].
  - destruct H as [H | H]; [|now right].
    left. simpl in H. now apply andb_true_iff in H as [H _].
Qed.

(** X1: with the OCR engine or the imaging library missing and OCR not
    forced, extraction of an opened document whose pages load does not
    raise, whatever the retrieval of embedded text does on each page: a
    page contributes its embedded text when that is not blank and the
    empty string otherwise. *)
Theorem extract_without_ocr env path dpi open (doc : list Page) :
  fitz env = Some open -> open path = Ok (loaded doc) ->
  pytesseract env = None \/ Image env = None ->
  extract_text_from_pdf env path false dpi
  = Ok (join [LF] (map embedded_text doc)).
Proof.
  intros F O H. unfold extract_text_from_pdf. rewrite F. cbn [bind].
  rewrite O. cbn [bind]. rewrite pages_text_embedded by now right.
  reflexivity.
Qed.

Lemma extract_without_ocr_witness :
  extract_text_from_pdf
    (no_ocr_env [text_page (txt "a"); damaged_page; text_page (txt "  ");
                 text_page (txt "b")])
    (txt "t.pdf") false 200
  = Ok (txt "a" ++ [LF; LF; LF] ++ txt "b").
Proof.
  apply (@extract_without_ocr
           (no_ocr_env [text_page (txt "a"); damaged_page;
                        text_page (txt "  "); text_page (txt "b")])
           (txt "t.pdf") 200
           (fun _ => Ok (loaded [text_page (txt "a"); damaged_page;
                                 text_page (txt "  "); text_page (txt "b")]))
           [text_page (txt "a"); damaged_page; text_page (txt "  ");
            text_page (txt "b")]).
  - reflexivity.
  - reflexivity.
  - left. reflexivity.
Defined.

Lemma pages_text_forced env1 env2 dpi (doc1 doc2 : list Page) :
  pytesseract env1 = pytesseract env2 -> Image env1 = Image env2 ->
  map (fun p => get_pixmap p dpi) doc1 = map (fun p => get_pixmap p dpi) doc2 ->
  pages_text env1 true dpi (loaded doc1) = pages_text env2 true dpi (loaded doc2).
Proof.
  intros T I. revert doc2.
  induction doc1 as [|p1 doc1 IH]; intros [|p2 doc2] H;
    try discriminate H; [reflexivity|].
  simpl in H. injection H as H1 H2.
  rewrite !pages_text_cons. rewrite (IH doc2 H2).
  unfold page_text. cbn [negb bind is_empty andb]. now rewrite H1, T, I.
Qed.

(** X2: with OCR forced the embedded text is not used: two documents
    whose pages load and rasterize alike at the given resolution give the
    same result, whatever text they embed. *)
Theorem extract_forced_ignores_embedded env dpi path (doc1 doc2 : list Page) :
  map (fun p => get_pixmap p dpi) doc1 = map (fun p => get_pixmap p dpi) doc2 ->
  extract_text_from_pdf (with_document env doc1) path true dpi
  = extract_text_from_pdf (with_document env doc2) path true dpi.
Proof.
  intros H. unfold extract_text_from_pdf. cbn [fitz with_document bind].
  now rewrite (@pages_text_forced (with_document env doc1)
                 (with_document env doc2) dpi doc1 doc2 eq_refl eq_refl H).
Qed.

Lemma extract_forced_ignores_embedded_witness :
  extract_text_from_pdf
    (with_document (ocr_env [] (txt "seen")) [text_page (txt "embedded")])
    (txt "t.pdf") true 200
  = extract_text_from_pdf
      (with_document (ocr_env [] (txt "seen")) [scanned_page])
      (txt "t.pdf") true 200.
Proof.
  apply (@extract_forced_ignores_embedded (ocr_env [] (txt "seen")) 200
           (txt "t.pdf") [text_page (txt "embedded")] [scanned_page]).
  reflexivity.
Defined.

(** ** Pages that need OCR *)

Lemma page_text_cases env force_ocr dpi page :
  page_text env force_ocr dpi page
  = if needs_ocr force_ocr page then ocr_text env dpi page
    else Ok (embedded_text page).
Proof.
  unfold page_text, needs_ocr, ocr_text, embedded_text, has_text.
  destruct force_ocr; [reflexivity|].
  destruct (get_text page) as [t|e];
    cbn [try_except bind is_empty negb andb orb]; [|reflexivity].
  rewrite andb_true_r.
  destruct (is_empty (strip t)) eqn:S; cbn [negb].
  - now rewrite andb_false_r.
  - destruct t as [|c t]; [discriminate S | reflexivity].
Qed.

Lemma pages_text_readable env force_ocr dpi (doc : list Page) :
  forallb (readable env force_ocr dpi) doc = true ->
  pages_text env force_ocr dpi (loaded doc)
  = Ok (map (contribution env force_ocr dpi) doc).
Proof.
  induction doc as [|page doc IH]; intros H; [reflexivity|].
  cbn [forallb] in H. apply andb_true_iff in H as [R H].
  rewrite pages_text_cons. cbn [map]. rewrite (IH H), page_text_cases.
  unfold readable in R. unfold contribution.
  destruct (needs_ocr force_ocr page); [|reflexivity].
  cbn [negb orb] in R.
  destruct (ocr_text env dpi page); [reflexivity | discriminate R].
Qed.

Lemma pages_text_app env force_ocr dpi (pre : Document) ts : forall post,
  pages_text env force_ocr dpi pre = Ok ts ->
  pages_text env force_ocr dpi (pre ++ post)
  = (us <- pages_text env force_ocr dpi post ;; Ok (ts ++ us)).
Proof.
  revert ts. induction pre as [|p pre IH]; intros ts post H.
  - injection H as <-. cbn [app].
    destruct (pages_text env force_ocr dpi post); reflexivity.
  - cbn [pages_text app] in *.
    destruct p as [p|e]; [|discriminate H]. cbn [bind] in *.
    destruct (page_text env force_ocr dpi p) as [t|e]; [|discriminate H].
    cbn [bind] in *.
    destruct (pages_text env force_ocr dpi pre) as [ts'|e] eqn:P;
      [|discriminate H].
    cbn [bind] in H. injection H as <-.
    rewrite (IH ts' post eq_refl).
    destruct (pages_text env force_ocr dpi post); reflexivity.
Qed.

(** X3: when every page loads and either has embedded text (and OCR is
    not forced) or is read by OCR without an error, the extracted text is
    the contributions of the pages in order, joined by newlines: the
    embedded text of a page that has some, the OCR reading of a page that
    has none. *)
Theorem extract_page_by_page env path force_ocr dpi open (doc : list Page) :
  fitz env = Some open -> open path = Ok (loaded doc) ->
  forallb (readable env force_ocr dpi) doc = true ->
  extract_text_from_pdf env path force_ocr dpi
  = Ok (join [LF] (map (contribution env force_ocr dpi) doc)).
Proof.
  intros F O H. unfold extract_text_from_pdf. rewrite F. cbn [bind].
  rewrite O. cbn [bind]. now rewrite (@pages_text_readable env force_ocr dpi doc H).
Qed.

Lemma extract_page_by_page_witness :
  extract_text_from_pdf
    (ocr_env [text_page (txt "Tender Title: Bridge"); scanned_page;
              garbled_page] (txt "seen"))
    (txt "t.pdf") false 200
  = Ok (txt "Tender Title: Bridge" ++ [LF] ++ txt "seen" ++ [LF]
        ++ txt "seen").
Proof.
  apply (@extract_page_by_page
           (ocr_env [text_page (txt "Tender Title: Bridge"); scanned_page;
                     garbled_page] (txt "seen"))
           (txt "t.pdf") false 200
           (fun _ => Ok (loaded [text_page (txt "Tender Title: Bridge");
                                 scanned_page; garbled_page]))
           [text_page (txt "Tender Title: Bridge"); scanned_page;
            garbled_page]);
    reflexivity.
Defined.

(** X4: the first page that needs OCR and whose OCR raises (in the
    rasterization, the image construction or the recognition) aborts the
    extraction with that exception, whatever the pages before it
    contributed and whatever follows (pages that load or not). *)
Theorem extract_aborts_on_ocr_error env path force_ocr dpi open
    (pre : list Page) (page : Page) (post : Document) (e : exn) :
  fitz env = Some open -> open path = Ok (loaded pre ++ Ok page :: post) ->
  forallb (readable env force_ocr dpi) pre = true ->
  needs_ocr force_ocr page = true ->
  ocr_text env dpi page = Raise e ->
  extract_text_from_pdf env path force_ocr dpi = Raise e.
Proof.
  intros F O H N E. unfold extract_text_from_pdf. rewrite F. cbn [bind].
  rewrite O. cbn [bind].
  rewrite (@pages_text_app env force_ocr dpi (loaded pre)
             (map (contribution env force_ocr dpi) pre) (Ok page :: post)
             (@pages_text_readable env force_ocr dpi pre H)).
  cbn [pages_text bind]. now rewrite page_text_cases, N, E.
Qed.

Lemma extract_aborts_on_ocr_error_witness :
  extract_text_from_pdf
    (ocr_env [text_page (txt "Tender Title: Bridge"); scanned_page;
              unrenderable_page; text_page (txt "Ref: B-7")] (txt "seen"))
    (txt "t.pdf") false 200
  = Raise (OtherError (txt "cannot render page")).
Proof.
  apply (@extract_aborts_on_ocr_error
           (ocr_env [text_page (txt "Tender Title: Bridge"); scanned_page;
                     unrenderable_page; text_page (txt "Ref: B-7")]
                    (txt "seen"))
           (txt "t.pdf") false 200
           (fun _ => Ok (loaded [text_page (txt "Tender Title: Bridge");
                                 scanned_page; unrenderable_page;
                                 text_page (txt "Ref: B-7")]))
           [text_page (txt "Tender Title: Bridge"); scanned_page]
           unrenderable_page (loaded [text_page (txt "Ref: B-7")])
           (OtherError (txt "cannot render page")));
    reflexivity.
Defined.

(** ** Labels and the value after them *)

Lemma separator_value pv g w x tail :
  forallb isspace w = true -> no_lf w = true ->
  x <> [] -> no_lf x = true -> head_fails is_sep_char x = true ->
  at_line_end tail = true ->
  run IM value_tail
    {| prev := pv; rest := ":"%char :: " "%char :: w ++ x ++ tail; grp := g |}
    (fun st => Some (grp st))
  = Some (Some (skipn 3 w ++ x)).
Proof.
  intros W WL N XL XS T.
  cbn [value_tail seqs separator run prev rest grp].
  change (":"%char :: " "%char :: w ++ x ++ tail)
    with ((txt ": " ++ w) ++ x ++ tail).
  assert (SEPW : forallb (atom_match IM sep_chars) (txt ": " ++ w) = true).
  { change (txt ": " ++ w) with (":"%char :: " "%char :: w).
    cbn [forallb]. rewrite !sep_chars_match.
    change (is_sep_char ":") with true. change (is_sep_char " ") with true.
    cbn [andb]. apply forallb_impl with (2 := W).
    intros c H. rewrite sep_chars_match. now apply space_is_sep. }
  assert (SEPX : head_fails (atom_match IM sep_chars) (x ++ tail) = true).
  { destruct x as [|c x]; [congruence|]. cbn [app head_fails] in *.
    now rewrite sep_chars_match. }
  assert (DOT : forallb (atom_match IM Dot) (skipn 3 w ++ x) = true).
  { rewrite forallb_app. apply andb_true_iff. split; [|exact XL].
    rewrite <- (firstn_skipn 3 w) in WL. unfold no_lf in WL.
    rewrite forallb_app in WL. now apply andb_true_iff in WL as [_ WL]. }
  assert (LEN : 1 <= length (skipn 3 w ++ x)).
  { rewrite length_app. destruct x; [congruence | simpl; lia]. }
  assert (TL : head_fails (atom_match IM Dot) tail = true).
  { destruct tail as [|c t]; [reflexivity|]. simpl in *. now rewrite T. }
  assert (G : forall pv0,
    rep_greedy (atom_match IM Dot) 1 None pv0 ((skipn 3 w ++ x) ++ tail)
      (fun pv1 x1 =>
         if at_eol IM {| prev := pv1; rest := x1;
                         grp := Some (firstn (length ((skipn 3 w ++ x) ++ tail)
                                              - length x1)
                                             ((skipn 3 w ++ x) ++ tail)) |}
         then Some (Some (firstn (length ((skipn 3 w ++ x) ++ tail)
                                  - length x1)
                                 ((skipn 3 w ++ x) ++ tail)))
         else None)
    = Some (Some (skipn 3 w ++ x))).
  { intros pv0.
    assert (EOL : forall pv1 g1,
              at_eol IM {| prev := pv1; rest := tail; grp := g1 |} = true).
    { intros pv1 g1. unfold at_eol. cbn [rest].
      destruct tail as [|c t]; [reflexivity|]. simpl in T. now rewrite T. }
    rewrite rep_greedy_all; try assumption.
    - rewrite EOL. now rewrite firstn_consumed.
    - rewrite EOL. discriminate. }
  rewrite rep_greedy_bounded; try assumption;
    change (skipn 5 (txt ": " ++ w)) with (skipn 3 w);
    rewrite app_assoc; cbn [prev rest grp]; rewrite G;
    [reflexivity | discriminate].
Qed.

(** At the start of a line the head of a pattern takes a label and hands
    over to what follows. *)
Ltac run_label B HK :=
  match type of B with
  | line_start ?pv = true =>
      destruct pv as [c|];
      [ apply Ascii.eqb_eq in B; subst c | clear B ]
  end;
  (vm_compute; rewrite ?HK; reflexivity).

Section Labels.

Variable R : Type.
Variable K : mstate -> option R.
Variable v : R.
Variable g : option str.
Variable y : str.

Hypothesis HK : forall pv',
  K {| prev := pv'; rest := ":"%char :: " "%char :: y; grp := g |} = Some v.

Lemma title_head_label L pv :
  In L title_labels -> line_start pv = true ->
  run IM title_head
    {| prev := pv; rest := txt L ++ ":"%char :: " "%char :: y; grp := g |} K
  = Some v.
Proof.
  intros I B. simpl in I.
  destruct I as [<- | [<- | [<- | [<- | []]]]]; run_label B HK.
Qed.

Lemma org_head_label L pv :
  In L org_labels -> line_start pv = true ->
  run IM org_head
    {| prev := pv; rest := txt L ++ ":"%char :: " "%char :: y; grp := g |} K
  = Some v.
Proof.
  intros I B. simpl in I.
  destruct I as [<- | [<- | [<- | [<- | [<- | []]]]]]; run_label B HK.
Qed.

Lemma date_head_label L pv :
  In L date_labels ->
  run IM date_head
    {| prev := pv; rest := txt L ++ ":"%char :: " "%char :: y; grp := g |} K
  = Some v.
Proof.
  intros I. simpl in I.
  destruct I as [<- | [<- | [<- | [<- | []]]]];
    (vm_compute; rewrite ?HK; reflexivity).
Qed.

End Labels.

Lemma title_shape pv x :
  match_here RE_TITLE pv x
  = run IM title_head {| prev := pv; rest := x; grp := None |}
      (fun s => run IM value_tail s (fun st => Some (grp st))).
Proof. reflexivity. Qed.

Lemma org_shape pv x :
  match_here RE_ORG pv x
  = run IM org_head {| prev := pv; rest := x; grp := None |}
      (fun s => run IM value_tail s (fun st => Some (grp st))).
Proof. reflexivity. Qed.

Lemma date_shape pv x :
  match_here RE_DATE pv x
  = run IM date_head {| prev := pv; rest := x; grp := None |}
      (fun s => run IM value_tail s (fun st => Some (grp st))).
Proof. reflexivity. Qed.

Section ValueAfterLabel.

Variables (w x tail : str).
Hypothesis W : forallb isspace w = true.
Hypothesis WL : no_lf w = true.
Hypothesis N : x <> [].
Hypothesis XL : no_lf x = true.
Hypothesis XS : head_fails is_sep_char x = true.
Hypothesis T : at_line_end tail = true.

Lemma title_label_match L pv :
  In L title_labels -> line_start pv = true ->
  match_here RE_TITLE pv (txt L ++ txt ": " ++ w ++ x ++ tail)
  = Some (Some (skipn 3 w ++ x)).
Proof.
  intros I B. rewrite title_shape.
  apply (@title_head_label _ _ (Some (skipn 3 w ++ x)) None (w ++ x ++ tail));
    try assumption.
  intros pv'. now apply separator_value.
Qed.

Lemma org_label_match L pv :
  In L org_labels -> line_start pv = true ->
  match_here RE_ORG pv (txt L ++ txt ": " ++ w ++ x ++ tail)
  = Some (Some (skipn 3 w ++ x)).
Proof.
  intros I B. rewrite org_shape.
  apply (@org_head_label _ _ (Some (skipn 3 w ++ x)) None (w ++ x ++ tail));
    try assumption.
  intros pv'. now apply separator_value.
Qed.

Lemma date_label_match L pv :
  In L date_labels ->
  match_here RE_DATE pv (txt L ++ txt ": " ++ w ++ x ++ tail)
  = Some (Some (skipn 3 w ++ x)).
Proof.
  intros I. rewrite date_shape.
  apply (@date_head_label _ _ (Some (skipn 3 w ++ x)) None (w ++ x ++ tail));
    try assumption.
  intros pv'. now apply separator_value.
Qed.

End ValueAfterLabel.

Lemma org_no_match_inside pv x :
  line_start pv = false -> match_here RE_ORG pv x = None.
Proof.
  intros H. unfold match_here.
  cbn [p_re p_flags RE_ORG seqs run at_bol prev].
  destruct pv as [c|]; [|discriminate]. simpl in H.
  unfold at_bol. cbn [prev]. change (multiline IM) with true.
  cbn [andb]. now rewrite H.
Qed.

Lemma org_no_match_label pv x :
  no_space_at_head x = true -> org_label_start x = false ->
  match_here RE_ORG pv x = None.
Proof.
  intros _ H. apply orb_false_iff in H as [H HP].
  apply orb_false_iff in H as [H HO]. apply orb_false_iff in H as [HD HG].
  unfold match_here.
  cbn [p_re p_flags RE_ORG seqs alts lits run prev rest grp].
  destruct (at_bol IM {| prev := pv; rest := x; grp := None |});
    [|reflexivity].
  unfold lits. rewrite !run_word_fail by assumption. reflexivity.
Qed.

Lemma date_no_match pv x :
  date_label_start x = false -> match_here RE_DATE pv x = None.
Proof.
  intros H. apply orb_false_iff in H as [H HS].
  apply orb_false_iff in H as [H HB]. apply orb_false_iff in H as [HC HD].
  unfold match_here.
  cbn [p_re p_flags RE_DATE seqs alts lits run prev rest grp].
  unfold lits. rewrite !run_word_fail by assumption. reflexivity.
Qed.

Lemma org_label_start_cut a z :
  org_label_start a = false -> org_label_start (a ++ LF :: z) = false.
Proof.
  unfold org_label_start. intros H.
  apply orb_false_iff in H as [H HP]. apply orb_false_iff in H as [H HO].
  apply orb_false_iff in H as [HD HG].
  repeat (apply orb_false_iff; split);
    match goal with |- ci_starts_with ?w _ = false =>
      destruct (ci_starts_with w (a ++ LF :: z)) eqn:E; [|reflexivity];
      apply (@ci_starts_with_cut w a LF z eq_refl) in E; congruence
    end.
Qed.

(** ** A labelled line of a pattern anchored to the line start *)

Section AnchoredField.

Variable p : pattern.
Variable q : str -> bool.
Variable labels : list string.

Hypothesis inside : forall pv x,
  line_start pv = false -> match_here p pv x = None.
Hypothesis no_label : forall pv x,
  no_space_at_head x = true -> q x = false -> match_here p pv x = None.
Hypothesis cut : forall a z, q a = false -> q (a ++ LF :: z) = false.
Hypothesis label_match : forall w x tail L pv,
  forallb isspace w = true -> no_lf w = true -> x <> [] -> no_lf x = true ->
  head_fails is_sep_char x = true -> at_line_end tail = true ->
  In L labels -> line_start pv = true ->
  match_here p pv (txt L ++ txt ": " ++ w ++ x ++ tail)
  = Some (Some (skipn 3 w ++ x)).
Hypothesis label_head : forall L,
  In L labels -> txt L <> [] /\ no_space_at_head (txt L) = true.

Lemma anchored_skip_line pv a z :
  clear_line q a = true ->
  search_from p pv ((a ++ [LF]) ++ z) = search_from p (Some LF) z.
Proof.
  intros G. unfold clear_line in G.
  apply andb_true_iff in G as [G GL]. apply andb_true_iff in G as [G GF].
  apply andb_true_iff in G as [GE GH].
  apply negb_true_iff in GL.
  rewrite search_from_skip; [now rewrite advance_snoc|].
  intros u1 u2 E N.
  destruct (exists_last N) as (u2' & e & ->).
  rewrite app_assoc in E. apply app_inj_tail in E as [E <-].
  destruct u1 as [|c u1].
  - simpl in E. subst u2'. simpl advance. rewrite <- app_assoc.
    apply no_label.
    + destruct a; [discriminate GE | exact GH].
    + now apply cut.
  - apply inside.
    assert (N1 : c :: u1 <> []) by discriminate.
    destruct (advance_in pv N1) as (d & -> & I). simpl.
    unfold no_lf in GF. rewrite forallb_forall in GF.
    apply negb_true_iff. apply GF. rewrite E.
    apply in_or_app. now left.
Qed.

Lemma anchored_skip_block ps : forall pv z,
  line_start pv = true -> forallb (clear_line q) ps = true ->
  exists pv', line_start pv' = true
              /\ search_from p pv (lines_block ps ++ z) = search_from p pv' z.
Proof.
  induction ps as [|a ps IH]; intros pv z B G.
  - exists pv. auto.
  - simpl in G. apply andb_true_iff in G as [G1 G2].
    destruct (IH (Some LF) z eq_refl G2) as (pv' & B' & E).
    exists pv'. split; [assumption|].
    unfold lines_block in *. simpl. rewrite <- app_assoc.
    now rewrite anchored_skip_line.
Qed.

Lemma clear_lines pre :
  Forall (fun l => no_break l = true) pre ->
  forallb (fun l => negb (q (strip l))) pre = true ->
  forallb (clear_line q) (map strip (filter nonblank pre)) = true.
Proof.
  induction 1 as [|l pre NB _ IH]; [reflexivity|].
  simpl. intros H. apply andb_true_iff in H as [H1 H2].
  destruct (nonblank l) eqn:E; [|auto].
  simpl. rewrite (IH H2), andb_true_r.
  destruct (strip_spec l) as (u & v & _ & _ & _ & SH & _).
  unfold clear_line. unfold nonblank in E. rewrite E, SH.
  rewrite (no_lf_strip _ (no_break_no_lf _ NB)). exact H1.
Qed.

Lemma anchored_value pre indent L X post :
  Forall (fun l => no_break l = true)
         (pre ++ (indent ++ txt L ++ txt ": " ++ X) :: post) ->
  In L labels ->
  forallb (fun l => negb (q (strip l))) pre = true ->
  forallb isspace indent = true ->
  plain_start (strip X) = true ->
  captured p (full_view (pre ++ (indent ++ txt L ++ txt ": " ++ X) :: post))
  = Some (strip X).
Proof.
  intros NB IL P I PS. destruct (label_head L IL) as [LN LH].
  apply Forall_app in NB as [NBpre NBl]. inversion NBl as [|? ? NBX _]; subst.
  apply no_break_no_lf in NBX.
  destruct (strip_spec X) as (w & v & EX & W & V & SH & SE).
  set (x := strip X) in *.
  assert (N : x <> []) by (destruct x; [discriminate PS | discriminate]).
  assert (S : strip (indent ++ txt L ++ txt ": " ++ X)
              = txt L ++ txt ": " ++ w ++ x).
  { rewrite EX.
    replace (indent ++ txt L ++ txt ": " ++ w ++ x ++ v)
      with (indent ++ (txt L ++ txt ": " ++ w ++ x) ++ v)
      by (now rewrite <- !app_assoc).
    apply strip_framed; try assumption.
    - destruct (txt L); [congruence | discriminate].
    - now apply no_space_at_head_app.
    - rewrite !app_assoc. now apply no_space_at_end_app. }
  rewrite EX in NBX. unfold no_lf in NBX.
  rewrite forallb_app in NBX. apply andb_true_iff in NBX as [_ NBX].
  rewrite forallb_app in NBX. apply andb_true_iff in NBX as [_ NBX].
  assert (NBX' : no_lf (w ++ x ++ v) = true) by exact NBX.
  clear NBX. rename NBX' into NBX.
  unfold no_lf in NBX. rewrite !forallb_app in NBX.
  apply andb_true_iff in NBX as [WL NBX].
  apply andb_true_iff in NBX as [XL _].
  rewrite full_view_split
    by (rewrite S; destruct (txt L); [congruence | discriminate]).
  rewrite S. unfold captured, search.
  destruct (@anchored_skip_block (map strip (filter nonblank pre)) None
              ((txt L ++ txt ": " ++ w ++ x)
               ++ after_line (map strip (filter nonblank post)))
              eq_refl (clear_lines NBpre P)) as (pv' & B' & ->).
  rewrite <- !app_assoc.
  erewrite search_from_here.
  2:{ apply label_match; try assumption.
      - destruct x as [|c x]; [congruence|]. simpl in *.
        unfold is_sep_char. apply andb_true_iff in PS as [P1 P2].
        apply negb_true_iff in P1, P2. rewrite P1, P2.
        simpl. exact SH.
      - destruct (after_line_head (map strip (filter nonblank post)))
          as [-> | (t & ->)]; reflexivity. }
  cbn [option_map]. f_equal.
  replace (skipn 3 w ++ x) with (skipn 3 w ++ x ++ [])
    by (now rewrite app_nil_r).
  apply strip_framed; try assumption; try reflexivity.
  rewrite <- (firstn_skipn 3 w), forallb_app in W.
  now apply andb_true_iff in W as [_ W].
Qed.

End AnchoredField.

Lemma title_label_value pre indent L X post :
  Forall (fun l => no_break l = true)
         (pre ++ (indent ++ txt L ++ txt ": " ++ X) :: post) ->
  In L title_labels ->
  forallb no_title_label pre = true ->
  forallb isspace indent = true ->
  plain_start (strip X) = true ->
  captured RE_TITLE
    (full_view (pre ++ (indent ++ txt L ++ txt ": " ++ X) :: post))
  = Some (strip X).
Proof.
  apply anchored_value with (q := title_label_start).
  - apply title_no_match_inside.
  - apply title_no_match_label.
  - apply title_label_start_cut.
  - intros. now apply title_label_match.
  - intros L0 I. simpl in I.
    destruct I as [<- | [<- | [<- | [<- | []]]]]; split;
      (discriminate || reflexivity).
Qed.

Lemma org_label_value pre indent L X post :
  Forall (fun l => no_break l = true)
         (pre ++ (indent ++ txt L ++ txt ": " ++ X) :: post) ->
  In L org_labels ->
  forallb no_org_label pre = true ->
  forallb isspace indent = true ->
  plain_start (strip X) = true ->
  captured RE_ORG
    (full_view (pre ++ (indent ++ txt L ++ txt ": " ++ X) :: post))
  = Some (strip X).
Proof.
  apply anchored_value with (q := org_label_start).
  - apply org_no_match_inside.
  - apply org_no_match_label.
  - apply org_label_start_cut.
  - intros. now apply org_label_match.
  - intros L0 I. simpl in I.
    destruct I as [<- | [<- | [<- | [<- | [<- | []]]]]]; split;
      (discriminate || reflexivity).
Qed.

(** ** A labelled date anywhere on a line *)

Lemma ci_starts_with_enough w : forall x z,
  length w <= length x -> ci_starts_with w (x ++ z) = ci_starts_with w x.
Proof.
  induction w as [|d w IH]; intros x z L; [reflexivity|].
  destruct x as [|c x]; simpl in *; [lia|].
  rewrite IH by lia. reflexivity.
Qed.

Lemma date_label_start_enough x z :
  10 <= length x -> date_label_start (x ++ z) = date_label_start x.
Proof.
  intros H. unfold date_label_start.
  rewrite !ci_starts_with_enough; [reflexivity | | | |]; simpl; lia.
Qed.

Lemma rstrip_spaces v : forallb isspace v = true -> rstrip v = [].
Proof.
  intros H. unfold rstrip.
  rewrite <- (app_nil_r (rev v)), lstrip_app_space; [reflexivity|].
  now rewrite forallb_rev.
Qed.

Lemma date_label_value pre a L X post :
  Forall (fun l => no_break l = true)
         (pre ++ (a ++ txt L ++ txt ": " ++ X) :: post) ->
  In L date_labels ->
  any_start date_label_start (view_before pre a) (txt L ++ txt ": ") = false ->
  plain_start (strip X) = true ->
  captured RE_DATE
    (full_view (pre ++ (a ++ txt L ++ txt ": " ++ X) :: post))
  = Some (strip X).
Proof.
  intros NB IL F PS.
  assert (LH : txt L <> [] /\ no_space_at_head (txt L) = true
               /\ 10 <= length (txt L ++ txt ": ")).
  { simpl in IL. destruct IL as [<- | [<- | [<- | [<- | []]]]];
      (split; [discriminate | split; [reflexivity | simpl; lia]]). }
  destruct LH as (LN & LH & LL).
  apply Forall_app in NB as [_ NBl]. inversion NBl as [|? ? NBX _]; subst.
  apply no_break_no_lf in NBX.
  destruct (strip_spec X) as (w & v & EX & W & V & SH & SE).
  set (x := strip X) in *.
  assert (N : x <> []) by (destruct x; [discriminate PS | discriminate]).
  rewrite EX in NBX. unfold no_lf in NBX.
  rewrite forallb_app in NBX. apply andb_true_iff in NBX as [_ NBX].
  rewrite forallb_app in NBX. apply andb_true_iff in NBX as [_ NBX].
  assert (NBX' : no_lf (w ++ x ++ v) = true) by exact NBX.
  clear NBX. rename NBX' into NBX.
  unfold no_lf in NBX. rewrite !forallb_app in NBX.
  apply andb_true_iff in NBX as [WL NBX].
  apply andb_true_iff in NBX as [XL _].
  rewrite EX.
  replace (a ++ txt L ++ txt ": " ++ w ++ x ++ v)
    with (a ++ (txt L ++ txt ": " ++ w ++ x) ++ v)
    by (now rewrite <- !app_assoc).
  rewrite view_split.
  2:{ destruct (txt L); [congruence | discriminate]. }
  2:{ now apply no_space_at_head_app. }
  2:{ rewrite !app_assoc. now apply no_space_at_end_app. }
  assert (VA : at_line_end (view_after v post) = true).
  { unfold view_after. rewrite rstrip_spaces by assumption.
    destruct (after_line_head (map strip (filter nonblank post)))
      as [-> | (t & ->)]; reflexivity. }
  unfold captured, search.
  rewrite search_from_skip.
  - rewrite <- !app_assoc. erewrite search_from_here.
    2:{ apply date_label_match; try assumption.
        destruct x as [|c x]; [congruence|]. simpl in *.
        unfold is_sep_char. apply andb_true_iff in PS as [P1 P2].
        apply negb_true_iff in P1, P2. rewrite P1, P2.
        simpl. exact SH. }
    cbn [option_map]. f_equal.
    replace (skipn 3 w ++ x) with (skipn 3 w ++ x ++ [])
      by (now rewrite app_nil_r).
    apply strip_framed; try assumption; try reflexivity.
    rewrite <- (firstn_skipn 3 w), forallb_app in W.
    now apply andb_true_iff in W as [_ W].
  - intros u1 u2 E N2. apply date_no_match.
    replace ((txt L ++ txt ": " ++ w ++ x) ++ view_after v post)
      with ((txt L ++ txt ": ") ++ (w ++ x) ++ view_after v post)
      by (now rewrite <- !app_assoc).
    rewrite app_assoc, date_label_start_enough
      by (rewrite length_app; destruct u2; [congruence | simpl in *; lia]).
    now apply any_start_false with (u := view_before pre a) (u1 := u1).
Qed.

(** ** Labelled fields *)

(** X5: every label of the title pattern works alike: when a line of the
    text is [L: X], possibly indented, with L one of Tender Title, Tender,
    Title, Project (spelled so), no line before it begins (trimmed, in
    any letter case) with Tender, Title or Project, and X trimmed is not
    empty and begins with neither a colon nor a dash, the title is X
    trimmed. *)
Theorem title_of_any_label (dp : dateparser_t) (text : str)
    (pre : list str) (indent : str) (L : string) (X : str) (post : list str) :
  In L title_labels ->
  splitlines text = pre ++ (indent ++ txt L ++ txt ": " ++ X) :: post ->
  forallb isspace indent = true ->
  forallb no_title_label pre = true ->
  plain_start (strip X) = true ->
  exists d, parse_tender_text dp text = Ok d
            /\ dict_get d "title" = Some (Some (strip X)).
Proof.
  intros IL E I P S. eexists. split; [apply parse_tender_text_eq|].
  cbn [dict_get String.eqb Ascii.eqb Bool.eqb]. do 2 f_equal.
  unfold title_of. rewrite E, title_label_value; try assumption.
  - destruct (strip X); [discriminate S | reflexivity].
  - pose proof (splitlines_no_break text) as NB. rewrite E in NB. exact NB.
Qed.

Lemma title_of_any_label_witness :
  exists d, parse_tender_text None call_for_offers = Ok d
            /\ dict_get d "title"
               = Some (Some (txt "Harbour Dredging, Phase 2")).
Proof.
  apply (@title_of_any_label None call_for_offers
           [txt "CALL FOR OFFERS"; []] (txt "   ") "Project"
           (txt "  Harbour Dredging, Phase 2  ")
           [txt "Procurement Entity: Port Authority";
            txt "Offers are due; Submission Deadline: 5 March 2026 noon"]).
  - right. right. right. left. reflexivity.
  - reflexivity.
  - reflexivity.
  - reflexivity.
  - reflexivity.
Defined.

(** X6: when a line of the text is [L: X], possibly indented, with L one
    of Issued By, Issuing Organization, Organization, Procurement Entity,
    Issued To (spelled so), no line before it begins (trimmed, in any
    letter case) with Issued, Issuing, Organization or Procurement, and X
    trimmed is not empty and begins with neither a colon nor a dash, the
    organization is X trimmed. *)
Theorem organization_of_labelled_line (dp : dateparser_t) (text : str)
    (pre : list str) (indent : str) (L : string) (X : str) (post : list str) :
  In L org_labels ->
  splitlines text = pre ++ (indent ++ txt L ++ txt ": " ++ X) :: post ->
  forallb isspace indent = true ->
  forallb no_org_label pre = true ->
  plain_start (strip X) = true ->
  exists d, parse_tender_text dp text = Ok d
            /\ dict_get d "organization" = Some (Some (strip X)).
Proof.
  intros IL E I P S. eexists. split; [apply parse_tender_text_eq|].
  cbn [dict_get String.eqb Ascii.eqb Bool.eqb]. f_equal.
  rewrite E. apply org_label_value; try assumption.
  pose proof (splitlines_no_break text) as NB. rewrite E in NB. exact NB.
Qed.

Lemma organization_of_labelled_line_witness :
  (exists d, parse_tender_text None call_for_offers = Ok d
             /\ dict_get d "organization"
                = Some (Some (txt "Port Authority")))
  /\ (exists d, parse_tender_text None sample = Ok d
                /\ dict_get d "organization"
                   = Some (Some (txt "City Public Works Department"))).
Proof.
  split.
  - apply (@organization_of_labelled_line None call_for_offers
             [txt "CALL FOR OFFERS"; [];
              txt "   Project:   Harbour Dredging, Phase 2  "]
             [] "Procurement Entity" (txt "Port Authority")
             [txt "Offers are due; Submission Deadline: 5 March 2026 noon"]);
      try reflexivity.
    right. right. right. left. reflexivity.
  - apply (@organization_of_labelled_line None sample
             [txt "Tender Title: Construction of New Bridge";
              txt "Reference: TB-2025-00123"]
             [] "Issuing Organization" (txt "City Public Works Department")
             [txt "Closing Date: 30 September 2025"]);
      try reflexivity.
    right. left. reflexivity.
Defined.

(** X7: when a line of the text contains [L: X] up to its end, with L
    one of Closing Date, Deadline, Bid Submission Deadline, Submission
    Deadline (spelled so), no earlier position of the text as the parser
    reads it begins, in any letter case, with Closing, Deadline, Bid or
    Submission, and X trimmed is not empty and begins with neither a colon
    nor a dash, the closing date is the normalization of X trimmed. *)
Theorem closing_date_of_labelled_line (dp : dateparser_t) (text : str)
    (pre : list str) (a : str) (L : string) (X : str) (post : list str) :
  In L date_labels ->
  splitlines text = pre ++ (a ++ txt L ++ txt ": " ++ X) :: post ->
  any_start date_label_start (view_before pre a) (txt L ++ txt ": ") = false ->
  plain_start (strip X) = true ->
  exists d, parse_tender_text dp text = Ok d
            /\ dict_get d "closing_date"
               = Some (normalize_date dp (Some (strip X))).
Proof.
  intros IL E F S. eexists. split; [apply parse_tender_text_eq|].
  cbn [dict_get String.eqb Ascii.eqb Bool.eqb]. do 2 f_equal.
  rewrite E. apply date_label_value; try assumption.
  pose proof (splitlines_no_break text) as NB. rewrite E in NB. exact NB.
Qed.

Lemma closing_date_of_labelled_line_witness :
  (exists d, parse_tender_text None call_for_offers = Ok d
             /\ dict_get d "closing_date"
                = Some (Some (txt "5 March 2026 noon")))
  /\ (exists d, parse_tender_text fixed_parser sample = Ok d
                /\ dict_get d "closing_date"
                   = Some (Some (txt "2025-09-30T00:00:00"))).
Proof.
  split.
  - apply (@closing_date_of_labelled_line None call_for_offers
             [txt "CALL FOR OFFERS"; [];
              txt "   Project:   Harbour Dredging, Phase 2  ";
              txt "Procurement Entity: Port Authority"]
             (txt "Offers are due; ") "Submission Deadline"
             (txt "5 March 2026 noon") []);
      try reflexivity.
    right. right. right. left. reflexivity.
  - apply (@closing_date_of_labelled_line fixed_parser sample
             [txt "Tender Title: Construction of New Bridge";
              txt "Reference: TB-2025-00123";
              txt "Issuing Organization: City Public Works Department"]
             [] "Closing Date" (txt "30 September 2025") []);
      try reflexivity.
    left. reflexivity.
Defined.

(** ** A labelled reference, whatever the label *)

Lemma ref_shape pv x :
  match_here RE_REF pv x
  = run IM ref_head {| prev := pv; rest := x; grp := None |}
      (fun s => run IM ref_tail s (fun st => Some (grp st))).
Proof. reflexivity. Qed.

Lemma ref_char_facts c :
  is_ref_char c = true ->
  isspace c = false /\ (c <> "-"%char -> is_sep_char c = false).
Proof.
  destruct c as [[] [] [] [] [] [] [] []]; vm_compute; intros H;
    try discriminate H; split; congruence.
Qed.

Lemma ref_tail_value pv g x y :
  x <> [] -> forallb is_ref_char x = true -> plain_start x = true ->
  head_fails is_ref_char y = true ->
  run IM ref_tail
    {| prev := pv; rest := ":"%char :: " "%char :: x ++ y; grp := g |}
    (fun st => Some (grp st))
  = Some (Some x).
Proof.
  intros N A PS Y.
  cbn [ref_tail seqs separator run prev rest grp].
  change (":"%char :: " "%char :: x ++ y) with (txt ": " ++ x ++ y).
  assert (SEP : head_fails (atom_match IM sep_chars) (x ++ y) = true).
  { destruct x as [|c x]; [congruence|]. cbn [app head_fails forallb] in *.
    apply andb_true_iff in A as [A _].
    rewrite sep_chars_match. apply negb_true_iff.
    apply ref_char_facts; [exact A|].
    cbn [plain_start] in PS. apply andb_true_iff in PS as [_ PS].
    apply negb_true_iff in PS. intros ->. discriminate PS. }
  assert (ALL : forallb (atom_match IM ref_chars) x = true).
  { apply forallb_impl with (p := is_ref_char); [|assumption].
    intros c H. now rewrite ref_chars_match. }
  assert (END : head_fails (atom_match IM ref_chars) y = true).
  { destruct y as [|c y]; [reflexivity|]. cbn [head_fails] in *.
    now rewrite ref_chars_match. }
  rewrite rep_greedy_upto; try assumption; try reflexivity; try (simpl; lia).
  - rewrite rep_greedy_all; try assumption.
    + now rewrite firstn_consumed.
    + destruct x; [congruence | simpl; lia].
    + discriminate.
  - rewrite rep_greedy_all; try assumption.
    + discriminate.
    + destruct x; [congruence | simpl; lia].
    + discriminate.
Qed.

Section RefLabels.

Variable R : Type.
Variable K : mstate -> option R.
Variable v : R.
Variable g : option str.
Variable y : str.

Hypothesis HK : forall pv',
  K {| prev := pv'; rest := ":"%char :: " "%char :: y; grp := g |} = Some v.

Lemma ref_head_label L pv :
  In L ref_labels ->
  run IM ref_head
    {| prev := pv; rest := txt L ++ ":"%char :: " "%char :: y; grp := g |} K
  = Some v.
Proof.
  intros I. simpl in I.
  destruct I as [<- | [<- | [<- | [<- | [<- | []]]]]];
    (vm_compute; rewrite ?HK; reflexivity).
Qed.

End RefLabels.

Lemma ref_label_match L pv x y :
  In L ref_labels ->
  x <> [] -> forallb is_ref_char x = true -> plain_start x = true ->
  head_fails is_ref_char y = true ->
  match_here RE_REF pv (txt L ++ txt ": " ++ x ++ y) = Some (Some x).
Proof.
  intros I N A PS Y. rewrite ref_shape.
  apply (@ref_head_label _ _ (Some x) None (x ++ y)); [|assumption].
  intros pv'. now apply ref_tail_value.
Qed.

Lemma ref_label_value pre a L x b post :
  In L ref_labels ->
  forallb is_ref_char x = true -> plain_start x = true ->
  head_fails is_ref_char b = true ->
  any_start ref_label_start (view_before pre a)
    (txt L ++ txt ": " ++ x ++ view_after b post) = false ->
  captured RE_REF
    (full_view (pre ++ (a ++ txt L ++ txt ": " ++ x ++ b) :: post))
  = Some x.
Proof.
  intros IL A PS B F.
  assert (N : x <> []) by (destruct x; [discriminate PS | discriminate]).
  assert (LH : txt L <> [] /\ no_space_at_head (txt L) = true).
  { simpl in IL. destruct IL as [<- | [<- | [<- | [<- | [<- | []]]]]];
      (split; [discriminate | reflexivity]). }
  destruct LH as (LN & LH).
  destruct (@forallb_no_space_ends is_ref_char x ref_char_not_space A)
    as [XH XE].
  replace (a ++ txt L ++ txt ": " ++ x ++ b)
    with (a ++ (txt L ++ txt ": " ++ x) ++ b)
    by (now rewrite <- !app_assoc).
  rewrite view_split.
  2:{ destruct (txt L); [congruence | discriminate]. }
  2:{ now apply no_space_at_head_app. }
  2:{ rewrite !app_assoc. now apply no_space_at_end_app. }
  unfold captured, search.
  rewrite search_from_skip.
  - rewrite <- !app_assoc. erewrite search_from_here.
    2:{ apply ref_label_match; try assumption.
        now apply view_after_head. }
    cbn [option_map]. f_equal. unfold strip.
    rewrite rstrip_fixed by assumption. now apply lstrip_fixed.
  - intros u1 u2 E N2. apply ref_no_match. rewrite <- !app_assoc.
    now apply any_start_false with (u := view_before pre a) (u1 := u1).
Qed.

(** X8: every label of the reference pattern works alike, and ASCII
    letters of either case are taken: when a line of the text contains
    [L: X] with L one of Reference, Ref, Tender No, Tender No., Tender ID
    (spelled so), X a non-empty string of ASCII letters, digits, dashes,
    underscores and slashes that does not begin with a dash and is not
    followed by a further letter, digit, dash, underscore or slash, and
    no earlier position of the text as the parser reads it begins a
    reference label (Ref, or Tender followed by white space and No or ID,
    in any letter case), the reference is X. *)
Theorem reference_of_any_label (dp : dateparser_t) (text : str)
    (pre : list str) (a : str) (L : string) (X b : str) (post : list str) :
  In L ref_labels ->
  splitlines text = pre ++ (a ++ txt L ++ txt ": " ++ X ++ b) :: post ->
  forallb is_ref_char X = true ->
  plain_start X = true ->
  head_fails is_ref_char b = true ->
  any_start ref_label_start (view_before pre a)
    (txt L ++ txt ": " ++ X ++ view_after b post) = false ->
  exists d, parse_tender_text dp text = Ok d
            /\ dict_get d "reference" = Some (Some X).
Proof.
  intros IL E A S B F. eexists. split; [apply parse_tender_text_eq|].
  cbn [dict_get String.eqb Ascii.eqb Bool.eqb]. do 2 f_equal.
  rewrite E. now apply ref_label_value.
Qed.

Lemma reference_of_any_label_witness :
  exists d, parse_tender_text None lot_notice = Ok d
            /\ dict_get d "reference" = Some (Some (txt "hb-2026/04")).
Proof.
  apply (@reference_of_any_label None lot_notice
           [txt "Lot 4 of the harbour works"] (txt "  Quote our ")
           "Tender No." (txt "hb-2026/04") (txt " (in full)")
           [txt "Offers by post only"]); try reflexivity.
  right. right. right. left. reflexivity.
Defined.

(** ** The parser reads trimmed lines *)

Lemma fallback_title_trimmed lines :
  fallback_title lines = find long_capital (map strip (filter nonblank lines)).
Proof.
  induction lines as [|l ls IH]; [reflexivity|].
  cbn [fallback_title filter]. unfold nonblank at 1.
  destruct (strip l) as [|c t] eqn:E; cbn [is_empty negb].
  - exact IH.
  - cbn [map find]. rewrite E. unfold long_capital at 1.
    destruct ((10 <? length (c :: t)) && isupper c); [reflexivity | exact IH].
Qed.

Lemma parse_of_trimmed_lines dp text :
  parse_tender_text dp text
  = Ok [ ("title"%string,
          if falsy (captured RE_TITLE (join [LF] (trimmed_lines text)))
          then find long_capital (trimmed_lines text)
          else captured RE_TITLE (join [LF] (trimmed_lines text)));
         ("reference"%string, captured RE_REF (join [LF] (trimmed_lines text)));
         ("organization"%string,
          captured RE_ORG (join [LF] (trimmed_lines text)));
         ("closing_date"%string,
          normalize_date dp
            (captured RE_DATE (join [LF] (trimmed_lines text)))) ].
Proof.
  rewrite parse_tender_text_eq. unfold title_of.
  now rewrite fallback_title_trimmed.
Qed.

(** X9: the record depends on the text only through its lines trimmed,
    the blank ones dropped: indentation, trailing blanks, blank lines and
    the kind of line end make no difference. *)
Theorem parse_by_trimmed_lines (dp : dateparser_t) (text1 text2 : str) :
  trimmed_lines text1 = trimmed_lines text2 ->
  parse_tender_text dp text1 = parse_tender_text dp text2.
Proof.
  intros H. rewrite !parse_of_trimmed_lines. now rewrite H.
Qed.

Lemma parse_by_trimmed_lines_witness :
  parse_tender_text fixed_parser sample_reflowed
  = parse_tender_text fixed_parser sample.
Proof.
  apply (@parse_by_trimmed_lines fixed_parser sample_reflowed sample).
  reflexivity.
Defined.

(** ** Blank text *)

Lemma splitlines_spaces_len n : forall x,
  length x <= n -> forallb isspace x = true ->
  Forall (fun l => forallb isspace l = true) (splitlines x).
Proof.
  induction n as [|n IH]; intros x L S.
  - destruct x; [constructor | simpl in L; lia].
  - destruct x as [|c x]; [constructor|]. simpl in L.
    cbn [forallb] in S. apply andb_true_iff in S as [C S].
    cbn [splitlines]. destruct (Ascii.eqb c CR).
    + destruct x as [|d x]; [repeat constructor|].
      simpl in L. cbn [forallb] in S. apply andb_true_iff in S as [D S'].
      destruct (Ascii.eqb d LF); constructor; try reflexivity.
      * apply IH; [lia | exact S'].
      * apply IH; [simpl; lia | cbn [forallb]; now rewrite D, S'].
    + destruct (is_linebreak c).
      * constructor; [reflexivity | apply IH; [lia | exact S]].
      * assert (H : Forall (fun l => forallb isspace l = true) (splitlines x))
          by (apply IH; [lia | exact S]).
        destruct (splitlines x) as [|l ls].
        -- repeat constructor. cbn [forallb]. now rewrite C.
        -- inversion H; subst. constructor; [|assumption].
           cbn [forallb]. now rewrite C.
Qed.

Lemma strip_spaces l : forallb isspace l = true -> strip l = [].
Proof.
  intros S. destruct (strip_spec l) as (u & v & E & _ & _ & H & _).
  rewrite E in S. rewrite !forallb_app in S.
  apply andb_true_iff in S as [_ S]. apply andb_true_iff in S as [S _].
  destruct (strip l) as [|c t]; [reflexivity|].
  simpl in H, S. apply andb_true_iff in S as [S _]. rewrite S in H.
  discriminate H.
Qed.

Lemma trimmed_lines_blank text :
  forallb isspace text = true -> trimmed_lines text = [].
Proof.
  intros S. unfold trimmed_lines.
  pose proof (@splitlines_spaces_len (length text) text (le_n _) S) as F.
  induction F as [|l ls Hl _ IH]; [reflexivity|].
  cbn [filter]. unfold nonblank at 1. rewrite (strip_spaces _ Hl).
  exact IH.
Qed.

(** X10: a text of white space only (blanks, tabs, line ends of any
    kind, or nothing at all) gives the record with its four fields
    null. *)
Theorem parse_blank_text (dp : dateparser_t) (text : str) :
  forallb isspace text = true ->
  parse_tender_text dp text = Ok all_null.
Proof.
  intros S. rewrite parse_of_trimmed_lines, (trimmed_lines_blank _ S).
  reflexivity.
Qed.

Lemma parse_blank_text_witness :
  parse_tender_text fixed_parser ([LF; CR; LF] ++ txt "   " ++ [LF])
  = Ok all_null.
Proof.
  apply (@parse_blank_text fixed_parser ([LF; CR; LF] ++ txt "   " ++ [LF])).
  reflexivity.
Defined.

(** ** The values are clean *)

Lemma no_break_strip l : no_break l = true -> no_break (strip l) = true.
Proof.
  destruct (strip_spec l) as (u & v & E & _). intros H.
  rewrite E in H. unfold no_break in *.
  rewrite !forallb_app in H.
  apply andb_true_iff in H as [_ H]. now apply andb_true_iff in H as [H _].
Qed.

Lemma clean_strip w :
  strip w <> [] -> no_break w = true -> clean (strip w) = true.
Proof.
  intros N B. destruct (strip_spec w) as (u & v & _ & _ & _ & H & E).
  unfold clean. rewrite H, E, (no_break_strip _ B).
  destruct (strip w); [congruence | reflexivity].
Qed.

Lemma view_chars ls :
  Forall (fun l => no_break l = true) ls ->
  forallb view_char (join [LF] ls) = true.
Proof.
  induction 1 as [|e ls B _ IH]; [reflexivity|].
  rewrite join_after, forallb_app. apply andb_true_iff. split.
  - apply forallb_impl with (2 := B). intros c H. unfold view_char.
    rewrite H. apply orb_true_r.
  - destruct ls; [reflexivity | exact IH].
Qed.

Lemma full_view_chars text :
  forallb view_char (full_view (splitlines text)) = true.
Proof.
  apply view_chars. unfold full_view.
  pose proof (splitlines_no_break text) as F.
  induction F as [|l ls B _ IH]; [constructor|].
  cbn [filter]. destruct (negb (is_empty (strip l))); [|exact IH].
  constructor; [now apply no_break_strip | exact IH].
Qed.

Lemma no_break_part u w v :
  forallb view_char (u ++ w ++ v) = true -> no_lf w = true ->
  no_break w = true.
Proof.
  rewrite !forallb_app. intros H L.
  apply andb_true_iff in H as [_ H]. apply andb_true_iff in H as [H _].
  unfold no_lf in L. unfold no_break.
  induction w as [|c w IH]; [reflexivity|].
  cbn [forallb] in *. apply andb_true_iff in H as [C H].
  apply andb_true_iff in L as [D L]. rewrite (IH H L), andb_true_r.
  unfold view_char in C. apply negb_true_iff in D. rewrite D in C.
  exact C.
Qed.

Lemma captured_line_clean p text :
  ends_with_line p ->
  when_set (fun w => clean w = true)
           (captured p (full_view (splitlines text))).
Proof.
  intros P. unfold captured, search.
  destruct (search_line (full_view (splitlines text)) None P)
    as [N | (g & G & L)].
  - rewrite N. exact I.
  - rewrite G.
    destruct (line_capture_strip (splitlines_no_break text) L) as (w & Gw & S).
    destruct L as (u & w' & v & G' & T & _ & NL & _).
    rewrite Gw in G'. injection G' as <-. rewrite Gw.
    cbn [option_map when_set]. apply clean_strip; [exact S|].
    apply no_break_part with (u := u) (v := v); [|exact NL].
    rewrite <- T. apply full_view_chars.
Qed.

Lemma captured_ref_chars full :
  when_set (fun w => clean w = true /\ forallb is_ref_char w = true)
           (captured RE_REF full).
Proof.
  unfold captured, search.
  destruct (search_ref full None) as [N | (g & G & (w & -> & W & A))].
  - rewrite N. exact I.
  - rewrite G. cbn [option_map when_set].
    destruct (forallb_no_space_ends is_ref_char w ref_char_not_space A)
      as [H E].
    unfold strip. rewrite rstrip_fixed, lstrip_fixed by assumption.
    split; [|exact A]. unfold clean. rewrite H, E.
    assert (B : no_break w = true).
    { apply forallb_impl with (2 := A). intros c C.
      destruct c as [[] [] [] [] [] [] [] []]; vm_compute in C |- *;
        congruence. }
    rewrite B. destruct w; [congruence | reflexivity].
Qed.

Lemma fallback_title_clean text :
  when_set (fun w => clean w = true) (fallback_title (splitlines text)).
Proof.
  rewrite fallback_title_find.
  destruct (find eligible (splitlines text)) as [l|] eqn:F; [|exact I].
  apply find_some in F as [In E]. cbn [option_map when_set].
  apply clean_strip.
  - unfold eligible in E. destruct (strip l); [discriminate E | discriminate].
  - pose proof (splitlines_no_break text) as NB.
    rewrite Forall_forall in NB. now apply NB.
Qed.

(** X11: whatever the text, a field that is not null holds a clean
    value: the title and the organization are not empty, have no white
    space at either end and no line end inside; the reference moreover
    has no white space anywhere; the closing date is such a clean string
    or the ISO rendering of a parsed timestamp. *)
Theorem parse_tender_text_clean_values (dp : dateparser_t) (text : str) :
  exists t r o c,
    parse_tender_text dp text
    = Ok [ ("title"%string, t); ("reference"%string, r);
           ("organization"%string, o); ("closing_date"%string, c) ]
    /\ when_set (fun w => clean w = true) t
    /\ when_set (fun w => clean w = true
                          /\ forallb (fun c => negb (isspace c)) w = true) r
    /\ when_set (fun w => clean w = true) o
    /\ when_set (fun w => clean w = true \/ exists dt, w = isoformat dt) c.
Proof.
  do 4 eexists. split; [apply parse_tender_text_fields|].
  pose proof (@captured_line_clean RE_TITLE text ends_with_line_title) as T.
  pose proof (@captured_line_clean RE_ORG text ends_with_line_org) as O.
  pose proof (@captured_line_clean RE_DATE text ends_with_line_date) as D.
  split; [|split; [|split]].
  - destruct (captured RE_TITLE (full_view (splitlines text))) as [t|];
      [exact T | apply fallback_title_clean].
  - pose proof (captured_ref_chars (full_view (splitlines text))) as R.
    destruct (captured RE_REF (full_view (splitlines text))) as [w|];
      [|exact I].
    destruct R as [C A]. split; [exact C|].
    apply forallb_impl with (2 := A). intros c H.
    now rewrite (ref_char_not_space _ H).
  - exact O.
  - destruct (captured RE_DATE (full_view (splitlines text))) as [d|];
      [|exact I].
    destruct dp as [parse|]; [|now left].
    destruct (parse d) as [dt|e]; [|now left].
    right. now exists dt.
Qed.

(** ** When the title is null *)

Lemma search_title_captured text :
  captured RE_TITLE (full_view (splitlines text)) = None
  <-> search RE_TITLE (full_view (splitlines text)) = None.
Proof.
  unfold captured, search.
  destruct (search_line (full_view (splitlines text)) None ends_with_line_title)
    as [N | (g & G & (u & w & v & -> & _))].
  - rewrite N. split; reflexivity.
  - rewrite G. split; discriminate.
Qed.

(** X12: the title is null exactly when the title pattern matches
    nowhere in the text as the parser reads it and no line, trimmed, is
    longer than 10 characters and begins with an upper-case character. *)
Theorem title_null_iff (dp : dateparser_t) (text : str) :
  exists d, parse_tender_text dp text = Ok d
            /\ (dict_get d "title" = Some None
                <-> search RE_TITLE (full_view (splitlines text)) = None
                    /\ existsb eligible (splitlines text) = false).
Proof.
  eexists. split; [apply parse_tender_text_eq|].
  cbn [dict_get String.eqb Ascii.eqb Bool.eqb].
  rewrite title_of_cases, <- search_title_captured, fallback_title_find.
  destruct (captured RE_TITLE (full_view (splitlines text))) as [t|].
  - split; [discriminate | intros [H _]; discriminate H].
  - destruct (find eligible (splitlines text)) as [l|] eqn:F.
    + cbn [option_map]. split; [discriminate|]. intros [_ H].
      apply find_some in F as [In E].
      assert (X : existsb eligible (splitlines text) = true)
        by (apply existsb_exists; now exists l).
      rewrite X in H. discriminate H.
    + split; [|reflexivity]. intros _. split; [reflexivity|].
      destruct (existsb eligible (splitlines text)) eqn:X; [|reflexivity].
      apply existsb_exists in X as (l & In & E).
      now rewrite (find_none _ _ F l In) in E.
Qed.

(** ** The view is a fixed point *)

Lemma splitlines_app_lf l rest :
  no_break l = true -> splitlines (l ++ LF :: rest) = l :: splitlines rest.
Proof.
  induction l as [|c l IH]; intros B; [reflexivity|].
  cbn [forallb no_break] in B. unfold no_break in B. cbn [forallb] in B.
  apply andb_true_iff in B as [C B]. apply negb_true_iff in C.
  cbn [app splitlines]. rewrite C.
  assert (N : Ascii.eqb c CR = false).
  { destruct (Ascii.eqb c CR) eqn:E; [|reflexivity].
    apply Ascii.eqb_eq in E. subst c. discriminate C. }
  rewrite N. now rewrite (IH B).
Qed.

Lemma splitlines_line l :
  no_break l = true -> l <> [] -> splitlines l = [l].
Proof.
  induction l as [|c l IH]; intros B N; [congruence|].
  unfold no_break in B. cbn [forallb] in B.
  apply andb_true_iff in B as [C B]. apply negb_true_iff in C.
  cbn [splitlines]. rewrite C.
  assert (E : Ascii.eqb c CR = false).
  { destruct (Ascii.eqb c CR) eqn:E; [|reflexivity].
    apply Ascii.eqb_eq in E. subst c. discriminate C. }
  rewrite E. destruct l as [|d l]; [reflexivity|].
  rewrite (IH B); [reflexivity | discriminate].
Qed.

Lemma splitlines_join ls :
  Forall (fun l => clean l = true) ls -> splitlines (join [LF] ls) = ls.
Proof.
  induction 1 as [|e ls C _ IH]; [reflexivity|].
  unfold clean in C. apply andb_true_iff in C as [C B].
  apply andb_true_iff in C as [C _]. apply andb_true_iff in C as [N _].
  destruct ls as [|e' ls].
  - cbn [join]. apply splitlines_line; [exact B|].
    destruct e; [discriminate N | discriminate].
  - rewrite join_cons by discriminate. cbn [app].
    now rewrite splitlines_app_lf, IH.
Qed.

Lemma trimmed_lines_clean text :
  Forall (fun l => clean l = true) (trimmed_lines text).
Proof.
  unfold trimmed_lines. pose proof (splitlines_no_break text) as F.
  induction F as [|l ls B _ IH]; [constructor|].
  cbn [filter]. unfold nonblank at 1.
  destruct (is_empty (strip l)) eqn:E; cbn [negb]; [exact IH|].
  constructor; [|exact IH].
  apply clean_strip; [|exact B]. destruct (strip l); [discriminate E | discriminate].
Qed.

Lemma strip_clean l : clean l = true -> strip l = l.
Proof.
  unfold clean. intros C. apply andb_true_iff in C as [C _].
  apply andb_true_iff in C as [C E]. apply andb_true_iff in C as [_ H].
  unfold strip. now rewrite rstrip_fixed, lstrip_fixed.
Qed.

Lemma trimmed_lines_join ls :
  Forall (fun l => clean l = true) ls -> trimmed_lines (join [LF] ls) = ls.
Proof.
  intros F. unfold trimmed_lines. rewrite (splitlines_join F).
  induction F as [|l ls C _ IH]; [reflexivity|].
  pose proof (strip_clean _ C) as S.
  cbn [filter]. unfold nonblank at 1. rewrite S.
  unfold clean in C. apply andb_true_iff in C as [C _].
  apply andb_true_iff in C as [C _]. apply andb_true_iff in C as [N _].
  rewrite N. cbn [map]. now rewrite IH, S.
Qed.

(** X13: the text as the parser reads it (lines trimmed, blank lines
    dropped, joined by newlines) is a fixed point of that reading, and
    parsing it gives the record of the original text. *)
Theorem parse_of_view (dp : dateparser_t) (text : str) :
  full_view (splitlines (full_view (splitlines text)))
  = full_view (splitlines text)
  /\ parse_tender_text dp (full_view (splitlines text))
     = parse_tender_text dp text.
Proof.
  assert (E : trimmed_lines (full_view (splitlines text)) = trimmed_lines text)
    by apply (trimmed_lines_join (trimmed_lines_clean text)).
  split.
  - change (join [LF] (trimmed_lines (join [LF] (trimmed_lines text)))
            = join [LF] (trimmed_lines text)).
    change (join [LF] (trimmed_lines text))
      with (full_view (splitlines text)) at 1.
    now rewrite E.
  - rewrite !parse_of_trimmed_lines. now rewrite E.
Qed.

(** ** The orchestrator and the command line *)

(** X14: [analyze_file] fails exactly when the extraction fails, and with
    the same exception; when the extraction succeeds it returns the path
    it was given, the parsed record, and as snippet the first 200
    characters of the extracted text (the whole text when it is
    shorter). *)
Theorem analyze_file_outcome env path force_ocr dpi :
  match extract_text_from_pdf env path force_ocr dpi with
  | Raise e => analyze_file env path force_ocr dpi = Raise e
  | Ok text =>
      exists parsed,
        parse_tender_text (dateparser env) text = Ok parsed
        /\ analyze_file env path force_ocr dpi
           = Ok {| ar_path := path; ar_parsed := parsed;
                   ar_text_snippet := firstn 200 text |}
        /\ length (firstn 200 text) = Nat.min 200 (length text)
        /\ text = firstn 200 text ++ skipn 200 text
  end.
Proof.
  unfold analyze_file.
  destruct (extract_text_from_pdf env path force_ocr dpi) as [text|e];
    cbn [bind]; [|reflexivity].
  eexists. split; [apply parse_tender_text_eq|].
  rewrite parse_tender_text_eq. cbn [bind].
  split; [reflexivity|]. split; [apply length_firstn|].
  symmetry. apply firstn_skipn.
Qed.

Section Output.

Variable json_dumps : AnalysisResult -> str.
Variable print_stdout : list str -> str -> option exn.

(** X15: without PyMuPDF every run fails the same way: nothing on standard
    output, the one line "Error: PyMuPDF (fitz) is required. ..." on the
    error stream and exit status 1, whatever the arguments. *)
Theorem main_without_fitz env args :
  fitz env = None ->
  main json_dumps print_stdout env args
  = {| stdout := [];
       stderr := [txt "Error: PyMuPDF (fitz) is required. Install with 'pip install pymupdf'."];
       exit_status := 1 |}.
Proof.
  intros F. unfold main, analyze_file, extract_text_from_pdf.
  rewrite F. reflexivity.
Qed.




End Output.

Lemma main_without_fitz_witness :
  main (fun _ => txt "{}") ascii_printer bare_env (cli_args "t.pdf" true true)
  = {| stdout := [];
       stderr := [txt "Error: PyMuPDF (fitz) is required. Install with 'pip install pymupdf'."];
       exit_status := 1 |}.
Proof.
  apply (@main_without_fitz (fun _ => txt "{}") ascii_printer bare_env
           (cli_args "t.pdf" true true)).
  reflexivity.
Defined.


(** The two runs of the example, computed: the report in full, and the
    report cut short at the title that the stream cannot encode. *)
Example plain_report_in_full :
  main (fun _ => txt "{}") plain_printer
       (no_ocr_env [text_page (txt "Ref: B-7")]) (cli_args "t.pdf" false false)
  = {| stdout := [ txt "Analyzed: t.pdf"; txt "title: None";
                   txt "reference: B-7"; txt "organization: None";
                   txt "closing_date: None" ];
       stderr := []; exit_status := 0 |}.
Proof. reflexivity. Qed.

Example plain_report_cut_short :
  main (fun _ => txt "{}") ascii_printer
       (no_ocr_env [text_page ecole_notice]) (cli_args "t.pdf" false false)
  = {| stdout := [ txt "Analyzed: t.pdf" ];
       stderr := [ txt "Error: 'ascii' codec can't encode character" ];
       exit_status := 1 |}.
Proof. reflexivity. Qed.



(** ** A document that cannot be read *)

Lemma embedded_text_none page : has_text page = false -> embedded_text page = [].
Proof.
  unfold has_text, embedded_text. destruct (get_text page) as [t|e];
    [|reflexivity].
  intros H. apply negb_false_iff in H. rewrite H.
  now rewrite andb_false_r.
Qed.

Lemma pages_text_unread env force_ocr dpi (doc : list Page) :
  pytesseract env = None \/ Image env = None ->
  force_ocr = true \/ forallb (fun p => negb (has_text p)) doc = true ->
  pages_text env force_ocr dpi (loaded doc) = Ok (repeat [] (length doc)).
Proof.
  intros M [-> | H]; [now apply pages_text_no_ocr|].
  destruct force_ocr; [now apply pages_text_no_ocr|].
  rewrite pages_text_embedded by now right.
  f_equal. induction doc as [|p doc IH]; [reflexivity|].
  cbn [forallb] in H. apply andb_true_iff in H as [P H].
  apply negb_true_iff in P.
  cbn [map length repeat]. now rewrite (embedded_text_none _ P), (IH H).
Qed.

Lemma newlines_are_spaces n : forallb isspace (repeat LF n) = true.
Proof. induction n as [|n IH]; [reflexivity | exact IH]. Qed.

Lemma firstn_repeat_min {A} (a : A) m : forall n,
  firstn m (repeat a n) = repeat a (Nat.min m n).
Proof.
  induction m as [|m IH]; intros [|n]; try reflexivity.
  cbn [firstn repeat Nat.min]. now rewrite IH.
Qed.

(** X18: with the OCR engine or the imaging library missing, a document
    that opens and whose pages load but carry no text (or whose text is
    set aside by forcing OCR) is analyzed without an error: the four
    fields are null and the snippet is one newline per page boundary, at
    most 200. *)
Theorem analyze_unread_document env path force_ocr dpi open (doc : list Page) :
  fitz env = Some open -> open path = Ok (loaded doc) ->
  pytesseract env = None \/ Image env = None ->
  force_ocr = true \/ forallb (fun p => negb (has_text p)) doc = true ->
  analyze_file env path force_ocr dpi
  = Ok {| ar_path := path; ar_parsed := all_null;
          ar_text_snippet := repeat LF (Nat.min 200 (length doc - 1)) |}.
Proof.
  intros F O M H. unfold analyze_file, extract_text_from_pdf.
  rewrite F. cbn [bind]. rewrite O. cbn [bind].
  rewrite (pages_text_unread env dpi doc M H). cbn [bind].
  rewrite join_empty_pages.
  rewrite parse_of_trimmed_lines,
    (trimmed_lines_blank _ (newlines_are_spaces _)).
  cbn [bind]. now rewrite firstn_repeat_min.
Qed.

Lemma analyze_unread_document_witness :
  analyze_file (no_ocr_env [scanned_page; text_page (txt "  "); damaged_page])
    (txt "scan.pdf") false 200
  = Ok {| ar_path := txt "scan.pdf"; ar_parsed := all_null;
          ar_text_snippet := [LF; LF] |}.
Proof.
  apply (@analyze_unread_document
           (no_ocr_env [scanned_page; text_page (txt "  "); damaged_page])
           (txt "scan.pdf") false 200
           (fun _ => Ok (loaded [scanned_page; text_page (txt "  ");
                                 damaged_page]))
           [scanned_page; text_page (txt "  "); damaged_page]).
  - reflexivity.
  - reflexivity.
  - left. reflexivity.
  - right. reflexivity.
Defined.
